(** * azidentity-static-source: the workload identity federation credential

    A shallow embedding of [workloadidentityfed.go] and the properties of
    its constructor and of its assertion cache.

    Conventions of the embedding.
    - An instant ([time.Time]) is an integer: the number of nanoseconds
      that separate it from the zero [Time].  [time.Add] is addition and
      [time.Before] the strict order; the saturation of the [time] package
      at the two ends of its 64-bit range and the difference between wall
      clock and monotonic readings are outside the model.
    - The process environment is a finite map from variable names to
      values; [os.LookupEnv] is a lookup in it.
    - [sync.RWMutex] is a reader count and a writer flag.  An operation
      that would have to wait and an unlock of a mutex that is not locked
      (Go's fatal error) are outcomes of their own.
    - The collaborator [azidentity.NewClientAssertionCredential] and the
      types it works on are parameters of the development.
    - [getAssertion] is given twice: as a method that runs alone, with the
      two readings of the clock as arguments, and as the program points of
      a goroutine in a system of goroutines that share the credential and
      a clock that only moves forward.  [solo_agrees] relates the two.
    - [GetToken] only hands its arguments to the collaborator and is not
      modelled. *)

From Stdlib Require Import ZArith Lia Bool.
From stdpp Require Import base strings list gmap.

Open Scope string_scope.
Open Scope Z_scope.

(** ** Package [time] *)

Module time.

Abbreviation Time := Z.
Abbreviation Duration := Z.

Definition Nanosecond : Duration := 1.
Definition Microsecond : Duration := 1000 * Nanosecond.
Definition Millisecond : Duration := 1000 * Microsecond.
Definition Second : Duration := 1000 * Millisecond.
Definition Minute : Duration := 60 * Second.

(** [time.Time{}], the zero value of the type. *)
Definition zero : Time := 0.

Definition Add (t : Time) (d : Duration) : Time := t + d.

Definition Before (t u : Time) : bool := t <? u.

End time.

(** ** Package [oauth2]: the token structure *)

Module oauth2.

Record Token : Type := mkToken {
  AccessToken : string;
  TokenType : string;
  RefreshToken : string;
  Expiry : time.Time
}.

(** [oauth2.Token{}] *)
Definition zero : Token :=
  {| AccessToken := ""; TokenType := ""; RefreshToken := ""; Expiry := time.zero |}.

Definition set_AccessToken (s : string) (t : Token) : Token :=
  {| AccessToken := s; TokenType := TokenType t;
     RefreshToken := RefreshToken t; Expiry := Expiry t |}.

End oauth2.

(** ** Package [sync]: the reader/writer mutex *)

Module sync.

Record RWMutex : Type := mkRWMutex {
  readers : nat;   (* number of read locks held *)
  writer : bool    (* is the write lock held *)
}.

(** [sync.RWMutex{}]: an unlocked mutex. *)
Definition zero : RWMutex := {| readers := 0; writer := false |}.

Inductive attempt : Type :=
| Done (m : RWMutex)   (* the call returns, the mutex is now [m] *)
| Wait                 (* the caller has to wait *)
| Throw.               (* fatal error: unlock of an unlocked mutex *)

Definition RLock (m : RWMutex) : attempt :=
  if writer m then Wait
  else Done {| readers := S (readers m); writer := false |}.

Definition RUnlock (m : RWMutex) : attempt :=
  match readers m with
  | O => Throw
  | S n => Done {| readers := n; writer := writer m |}
  end.

Definition Lock (m : RWMutex) : attempt :=
  if writer m then Wait
  else match readers m with
       | O => Done {| readers := 0; writer := true |}
       | S _ => Wait
       end.

Definition Unlock (m : RWMutex) : attempt :=
  if writer m then Done {| readers := readers m; writer := false |}
  else Throw.

End sync.

(** ** The environment *)

Definition azureClientID : string := "AZURE_CLIENT_ID".
Definition azureTenantID : string := "AZURE_TENANT_ID".
Definition azureFederatedTokentoken : string := "AZURE_FEDERATED_TOKEN".

(** [os.LookupEnv]: the value and whether the variable is set. *)
Definition LookupEnv (env : gmap string string) (key : string) : string * bool :=
  match env !! key with
  | Some v => (v, true)
  | None => ("", false)
  end.

(** ** Errors *)

(** The three package-level error values, and the errors that come from
    the collaborator, which are none of the three. *)
Inductive error : Type :=
| errorClientIDNotSpecified
| errorTokenNotSpecified
| errorTenantIDNotSpecified
| collaboratorError (msg : string).

(** A Go result pair [(value, error)] of which exactly one is set. *)
Inductive result (A : Type) : Type :=
| Success (a : A)
| Failure (e : error).
Arguments Success {A} a.
Arguments Failure {A} e.

Definition result_bind {A B : Type} (r : result A) (k : A -> result B) : result B :=
  match r with
  | Success a => k a
  | Failure e => Failure e
  end.

Declare Scope result_scope.
Delimit Scope result_scope with result.
Notation "x <- r ; k" := (result_bind r (fun x => k))
  (at level 100, r at next level, right associativity,
   format "'[v' x  <-  r ; '/' k ']'") : result_scope.

(** ** The credential and its options *)

Section Credential.

(** [azcore.ClientOptions] and [*azidentity.ClientAssertionCredential] *)
Context {ClientOptions ClientAssertionCredential : Type}.
Context `{!Inhabited ClientOptions}.

Record WorkloadIdentityFederationCredential : Type := mkCredential {
  assertion : string;
  token : oauth2.Token;
  cred : option ClientAssertionCredential;   (* a pointer, nil until set *)
  expires : time.Time;
  mtx : sync.RWMutex
}.

Record WorkloadIdentityFederationCredentialOptions : Type := mkOptions {
  WithClientOptions : ClientOptions;         (* the embedded azcore.ClientOptions *)
  AdditionallyAllowedTenants : list string;
  ClientID : string;
  DisableInstanceDiscovery : bool;
  TenantID : string;
  FederatedToken : oauth2.Token
}.

(** [azidentity.ClientAssertionCredentialOptions] *)
Record ClientAssertionCredentialOptions : Type := mkCACOptions {
  caco_AdditionallyAllowedTenants : list string;
  caco_ClientOptions : ClientOptions;
  caco_DisableInstanceDiscovery : bool
}.

(** [&WorkloadIdentityFederationCredentialOptions{}] *)
Definition zeroOptions : WorkloadIdentityFederationCredentialOptions :=
  {| WithClientOptions := inhabitant;
     AdditionallyAllowedTenants := [];
     ClientID := "";
     DisableInstanceDiscovery := false;
     TenantID := "";
     FederatedToken := oauth2.zero |}.

Definition set_assertion (a : string) (w : WorkloadIdentityFederationCredential) :=
  {| assertion := a; token := token w; cred := cred w;
     expires := expires w; mtx := mtx w |}.

Definition set_expires (t : time.Time) (w : WorkloadIdentityFederationCredential) :=
  {| assertion := assertion w; token := token w; cred := cred w;
     expires := t; mtx := mtx w |}.

Definition set_cred (c : option ClientAssertionCredential)
    (w : WorkloadIdentityFederationCredential) :=
  {| assertion := assertion w; token := token w; cred := c;
     expires := expires w; mtx := mtx w |}.

Definition set_mtx (m : sync.RWMutex) (w : WorkloadIdentityFederationCredential) :=
  {| assertion := assertion w; token := token w; cred := cred w;
     expires := expires w; mtx := m |}.

(** *** The constructor *)

(** [azidentity.NewClientAssertionCredential tenantID clientID _ options];
    its third argument is always the method value [w.getAssertion], which
    the collaborator keeps and does not call while it is constructed. *)
Variable NewClientAssertionCredential :
  string -> string -> ClientAssertionCredentialOptions ->
  ClientAssertionCredential + string.

Definition NewWorkloadIdentityFederationCredential
    (options : option WorkloadIdentityFederationCredentialOptions)
    (env : gmap string string)
    : result WorkloadIdentityFederationCredential :=
  let options := match options with
                 | None => zeroOptions
                 | Some o => o
                 end in
  (clientID <-
     (let clientID := ClientID options in
      if String.eqb clientID "" then
        let '(clientID, ok) := LookupEnv env azureClientID in
        if negb ok then Failure errorClientIDNotSpecified
        else Success clientID
      else Success clientID);
   token <-
     (let token := FederatedToken options in
      if String.eqb (oauth2.AccessToken token) "" then
        let '(v, ok) := LookupEnv env azureFederatedTokentoken in
        let token := oauth2.set_AccessToken v token in
        if negb ok || String.eqb (oauth2.AccessToken token) ""
        then Failure errorTokenNotSpecified
        else Success token
      else Success token);
   tenantID <-
     (let tenantID := TenantID options in
      if String.eqb tenantID "" then
        let '(tenantID, ok) := LookupEnv env azureTenantID in
        if negb ok then Failure errorTenantIDNotSpecified
        else Success tenantID
      else Success tenantID);
   let w := {| assertion := ""; token := token; cred := None;
               expires := time.zero; mtx := sync.zero |} in
   let caco := {| caco_AdditionallyAllowedTenants := AdditionallyAllowedTenants options;
                  caco_ClientOptions := WithClientOptions options;
                  caco_DisableInstanceDiscovery := DisableInstanceDiscovery options |} in
   match NewClientAssertionCredential tenantID clientID caco with
   | inr err => Failure (collaboratorError err)
   | inl c => Success (set_cred (Some c) w)
   end)%result.

(** *** The assertion cache *)

(** A method of the credential either returns a value and leaves the
    credential in a new state, or waits for the mutex for ever (no other
    goroutine runs in a sequential execution), or dies of a fatal error. *)
Inductive outcome (A : Type) : Type :=
| Returns (a : A) (w : WorkloadIdentityFederationCredential)
| Blocked
| Fatal.
Arguments Returns {A} a w.
Arguments Blocked {A}.
Arguments Fatal {A}.

Definition method (A : Type) : Type :=
  WorkloadIdentityFederationCredential -> outcome A.

Definition ret {A : Type} (a : A) : method A := fun w => Returns a w.

Definition bind {A B : Type} (m : method A) (k : A -> method B) : method B :=
  fun w => match m w with
           | Returns a w' => k a w'
           | Blocked => Blocked
           | Fatal => Fatal
           end.

(** reading a field of [w], and assigning to [w] *)
Definition read {A : Type} (f : WorkloadIdentityFederationCredential -> A) : method A :=
  fun w => Returns (f w) w.

Definition assign
    (f : WorkloadIdentityFederationCredential -> WorkloadIdentityFederationCredential)
    : method unit :=
  fun w => Returns tt (f w).

(** a call [w.mtx.op()] *)
Definition on_mtx (op : sync.RWMutex -> sync.attempt) : method unit :=
  fun w => match op (mtx w) with
           | sync.Done m => Returns tt (set_mtx m w)
           | sync.Wait => Blocked
           | sync.Throw => Fatal
           end.

Notation "x <- m ;; k" := (bind m (fun x => k))
  (at level 100, m at next level, right associativity).
Notation "m ;; k" := (bind m (fun _ => k))
  (at level 100, right associativity).

(** The test of lines 109 and 115: [w.expires.Before(now)]. *)
Definition expired (w : WorkloadIdentityFederationCredential) (now : time.Time) : bool :=
  time.Before (expires w) now.

(** The body of the inner [if], lines 116 and 118. *)
Definition refresh : method unit :=
  tok <- read token;;
  assign (set_assertion (oauth2.AccessToken tok));;
  tok <- read token;;
  assign (set_expires (time.Add (oauth2.Expiry tok) (-10 * time.Minute))).

(** [getAssertion]; [now1] and [now2] are what the calls of [time.Now] at
    lines 109 and 115 return.  The deferred unlock runs after the operand
    of [return] has been evaluated. *)
Definition getAssertion (now1 now2 : time.Time) : method (string * option error) :=
  on_mtx sync.RLock;;
  stale <- read (fun w => expired w now1);;
  if stale then
    on_mtx sync.RUnlock;;
    on_mtx sync.Lock;;
    stale <- read (fun w => expired w now2);;
    (if stale then refresh else ret tt);;
    a <- read assertion;;
    on_mtx sync.Unlock;;
    ret (a, None)
  else
    a <- read assertion;;
    on_mtx sync.RUnlock;;
    ret (a, None).

(** Calls of [getAssertion] one after the other, each with its two clock
    readings; the results in the order of the calls. *)
Fixpoint getAssertions (clock : list (time.Time * time.Time))
    : method (list (string * option error)) :=
  match clock with
  | [] => ret []
  | (now1, now2) :: clock =>
      r <- getAssertion now1 now2;;
      rs <- getAssertions clock;;
      ret (r :: rs)
  end.

(** Which way a call goes: the [else] branch of line 120, the first branch
    with the inner test false, or the first branch with the inner body. *)
Inductive branch : Type :=
| FastPath
| Rechecked
| Refreshed.

Definition branch_taken (now1 now2 : time.Time)
    (w : WorkloadIdentityFederationCredential) : branch :=
  if expired w now1 then
    if expired w now2 then Refreshed else Rechecked
  else FastPath.

(** The branches taken by calls one after the other. *)
Fixpoint branches (clock : list (time.Time * time.Time))
    (w : WorkloadIdentityFederationCredential) : list branch :=
  match clock with
  | [] => []
  | (now1, now2) :: clock =>
      branch_taken now1 now2 w ::
      match getAssertion now1 now2 w with
      | Returns _ w' => branches clock w'
      | Blocked | Fatal => []
      end
  end.

End Credential.

Arguments WorkloadIdentityFederationCredential : clear implicits.
Arguments WorkloadIdentityFederationCredentialOptions : clear implicits.
Arguments ClientAssertionCredentialOptions : clear implicits.
Arguments outcome : clear implicits.
Arguments Returns {_ _} a w.
Arguments Blocked {_ _}.
Arguments Fatal {_ _}.

(** ** Goroutines calling [getAssertion] concurrently

    The goroutines share one credential.  A goroutine is at a program point
    of [getAssertion]; a step of the system is one goroutine executing the
    statement at its program point (every access to the shared credential
    and every mutex operation is a step of its own), or the clock moving
    forward.  The accesses to [w] are all made with the mutex held, so the
    program has no data race and its executions are these interleavings. *)

Inductive pc : Type :=
| AtRLock                         (* line 108: w.mtx.RLock() *)
| AtCheck                         (* line 109: if w.expires.Before(time.Now()) *)
| AtRUnlock                       (* line 111: w.mtx.RUnlock() *)
| AtLock                          (* line 112: w.mtx.Lock() *)
| AtRecheck                       (* line 115: if now := time.Now(); w.expires.Before(now) *)
| AtAssertion                     (* line 116: w.assertion = w.token.AccessToken *)
| AtExpires                       (* line 118: w.expires = w.token.Expiry.Add(...) *)
| AtReturnSlow                    (* line 123, write lock held: evaluate w.assertion *)
| AtUnlock (a : string)           (* the deferred w.mtx.Unlock() of line 113 *)
| AtReturnFast                    (* line 123, read lock held: evaluate w.assertion *)
| AtRUnlockDeferred (a : string)  (* the deferred w.mtx.RUnlock() of line 121 *)
| Returned (r : string * option error).

Section Goroutines.

Context {ClientAssertionCredential : Type}.

Abbreviation credential := (WorkloadIdentityFederationCredential ClientAssertionCredential).

Record system : Type := mkSystem {
  shared : credential;        (* the credential [w] all goroutines call *)
  goroutines : list pc;
  clock : time.Time;          (* what [time.Now] returns at this moment *)
  refreshed : nat             (* how many times the body of the inner [if] was entered *)
}.

Inductive progress : Type :=
| Next (s : system)
| Disabled     (* waiting for the mutex, already returned, or no such goroutine *)
| Dies.        (* fatal error *)

Definition goto (i : nat) (p : pc) (w : credential) (s : system) : system :=
  {| shared := w; goroutines := <[i := p]> (goroutines s);
     clock := clock s; refreshed := refreshed s |}.

Definition call_mtx (op : sync.RWMutex -> sync.attempt) (i : nat) (p : pc)
    (s : system) : progress :=
  match op (mtx (shared s)) with
  | sync.Done m => Next (goto i p (set_mtx m (shared s)) s)
  | sync.Wait => Disabled
  | sync.Throw => Dies
  end.

Definition count_refresh (s : system) : system :=
  {| shared := shared s; goroutines := goroutines s;
     clock := clock s; refreshed := S (refreshed s) |}.

(** Goroutine [i] executes the statement it is at. *)
Definition step (i : nat) (s : system) : progress :=
  let w := shared s in
  match goroutines s !! i with
  | None => Disabled
  | Some AtRLock => call_mtx sync.RLock i AtCheck s
  | Some AtCheck =>
      if expired w (clock s) then Next (goto i AtRUnlock w s)
      else Next (goto i AtReturnFast w s)
  | Some AtRUnlock => call_mtx sync.RUnlock i AtLock s
  | Some AtLock => call_mtx sync.Lock i AtRecheck s
  | Some AtRecheck =>
      if expired w (clock s) then Next (count_refresh (goto i AtAssertion w s))
      else Next (goto i AtReturnSlow w s)
  | Some AtAssertion =>
      Next (goto i AtExpires (set_assertion (oauth2.AccessToken (token w)) w) s)
  | Some AtExpires =>
      Next (goto i AtReturnSlow
              (set_expires (time.Add (oauth2.Expiry (token w)) (-10 * time.Minute)) w) s)
  | Some AtReturnSlow => Next (goto i (AtUnlock (assertion w)) w s)
  | Some (AtUnlock a) => call_mtx sync.Unlock i (Returned (a, None)) s
  | Some AtReturnFast => Next (goto i (AtRUnlockDeferred (assertion w)) w s)
  | Some (AtRUnlockDeferred a) => call_mtx sync.RUnlock i (Returned (a, None)) s
  | Some (Returned _) => Disabled
  end.

(** The clock moves forward by [d] nanoseconds. *)
Definition tick (d : N) (s : system) : system :=
  {| shared := shared s; goroutines := goroutines s;
     clock := clock s + Z.of_N d; refreshed := refreshed s |}.

Inductive event : Type :=
| Step (i : nat)
| Tick (d : N).

Definition fire (e : event) (s : system) : progress :=
  match e with
  | Step i => step i s
  | Tick d => Next (tick d s)
  end.

(** An execution: the events of a schedule one after the other. *)
Fixpoint run (sched : list event) (s : system) : progress :=
  match sched with
  | [] => Next s
  | e :: sched =>
      match fire e s with
      | Next s' => run sched s'
      | Disabled => Disabled
      | Dies => Dies
      end
  end.

(** [n] goroutines about to call [w.getAssertion] at instant [now]. *)
Definition start (n : nat) (w : credential) (now : time.Time) : system :=
  {| shared := w; goroutines := replicate n AtRLock; clock := now; refreshed := 0 |}.

Definition has_returned (p : pc) : bool :=
  match p with Returned _ => true | _ => false end.

Definition all_returned (s : system) : bool :=
  forallb has_returned (goroutines s).

(** Program points at which a goroutine holds the read lock, holds the
    write lock, is inside the body of the inner [if], is at the second
    test, is at or beyond the body, is beyond the first assignment. *)
Definition holdsR (p : pc) : bool :=
  match p with
  | AtCheck | AtRUnlock | AtReturnFast | AtRUnlockDeferred _ => true
  | _ => false
  end.

Definition holdsW (p : pc) : bool :=
  match p with
  | AtRecheck | AtAssertion | AtExpires | AtReturnSlow | AtUnlock _ => true
  | _ => false
  end.

Definition inBody (p : pc) : bool :=
  match p with AtAssertion | AtExpires => true | _ => false end.

Definition atRecheck (p : pc) : bool :=
  match p with AtRecheck => true | _ => false end.

Definition pastRecheck (p : pc) : bool :=
  match p with
  | AtAssertion | AtExpires | AtReturnSlow | AtUnlock _
  | AtReturnFast | AtRUnlockDeferred _ | Returned _ => true
  | _ => false
  end.

Definition pastAssign (p : pc) : bool :=
  match p with
  | AtExpires | AtReturnSlow | AtUnlock _
  | AtReturnFast | AtRUnlockDeferred _ | Returned _ => true
  | _ => false
  end.

(** How many goroutines are at a program point that satisfies [f]. *)
Fixpoint cnt (f : pc -> bool) (l : list pc) : nat :=
  match l with
  | [] => O
  | p :: l => (Nat.b2n (f p) + cnt f l)%nat
  end.

(** How many statements a goroutine has still to execute at most, and the
    sum over the goroutines. *)
Definition remaining (p : pc) : nat :=
  match p with
  | AtRLock => 9
  | AtCheck => 8
  | AtRUnlock => 7
  | AtLock => 6
  | AtRecheck => 5
  | AtAssertion => 4
  | AtExpires => 3
  | AtReturnSlow => 2
  | AtUnlock _ => 1
  | AtReturnFast => 2
  | AtRUnlockDeferred _ => 1
  | Returned _ => 0
  end.

Fixpoint total (l : list pc) : nat :=
  match l with
  | [] => O
  | p :: l => (remaining p + total l)%nat
  end.

(** What a goroutine that is about to return, or has returned, gives back. *)
Definition yields (p : pc) : option (string * option error) :=
  match p with
  | AtUnlock a | AtRUnlockDeferred a => Some (a, None)
  | Returned r => Some r
  | _ => None
  end.

End Goroutines.

Arguments system : clear implicits.
Arguments progress : clear implicits.

(** ** Notions used to state the properties *)

Section Statements.

Context {ClientOptions ClientAssertionCredential : Type}.
Context `{!Inhabited ClientOptions}.

(** The options the constructor works with: its argument, or the zero
    options when the argument is nil (lines 64 to 66). *)
Definition options_or_zero
    (options : option (WorkloadIdentityFederationCredentialOptions ClientOptions))
    : WorkloadIdentityFederationCredentialOptions ClientOptions :=
  match options with
  | None => zeroOptions
  | Some o => o
  end.

(** A client or tenant identifier [v] is supplied: by the option when the
    option is not empty, and otherwise by the environment. *)
Definition supplied (explicit : string) (fromEnv : option string) (v : string) : Prop :=
  (explicit <> "" /\ v = explicit) \/ (explicit = "" /\ fromEnv = Some v).

(** The same for the federated token [t]; the environment supplies only the
    access token, and only a non-empty one. *)
Definition token_supplied (explicit : oauth2.Token) (fromEnv : option string)
    (t : oauth2.Token) : Prop :=
  (oauth2.AccessToken explicit <> "" /\ t = explicit) \/
  (oauth2.AccessToken explicit = "" /\
   exists v, fromEnv = Some v /\ v <> "" /\ t = oauth2.set_AccessToken v explicit).

(** The options the constructor hands to the collaborator. *)
Definition caco_of (o : WorkloadIdentityFederationCredentialOptions ClientOptions)
    : ClientAssertionCredentialOptions ClientOptions :=
  {| caco_AdditionallyAllowedTenants := AdditionallyAllowedTenants o;
     caco_ClientOptions := WithClientOptions o;
     caco_DisableInstanceDiscovery := DisableInstanceDiscovery o |}.

(** The credential the constructor returns for token [t] once the
    collaborator has returned [c]. *)
Definition constructed (t : oauth2.Token) (c : ClientAssertionCredential)
    : WorkloadIdentityFederationCredential ClientAssertionCredential :=
  {| assertion := ""; token := t; cred := Some c;
     expires := time.zero; mtx := sync.zero |}.

(** The state of a credential after the inner body has run. *)
Definition after_refresh (w : WorkloadIdentityFederationCredential ClientAssertionCredential)
    : WorkloadIdentityFederationCredential ClientAssertionCredential :=
  set_expires (time.Add (oauth2.Expiry (token w)) (-10 * time.Minute))
    (set_assertion (oauth2.AccessToken (token w)) w).

(** Every clock reading of a sequence of calls is later than [t]. *)
Definition readings_after (t : time.Time) (clock : list (time.Time * time.Time)) : Prop :=
  Forall (fun nn => t < nn.1 /\ t < nn.2) clock.

End Statements.

(** ** The invariant of the concurrent executions *)

Section Invariant.

Context {ClientAssertionCredential : Type}.

(** [w0] is the credential and [now0] the instant at which the goroutines
    start. *)
Variable w0 : WorkloadIdentityFederationCredential ClientAssertionCredential.
Variable now0 : time.Time.

Record inv (s : system ClientAssertionCredential) : Prop := mkInv {
  (* the token and the collaborator are never assigned *)
  inv_token : token (shared s) = token w0;
  inv_cred : cred (shared s) = cred w0;
  (* the clock only moves forward *)
  inv_clock : now0 <= clock s;
  (* the mutex counts the goroutines that hold it *)
  inv_readers : sync.readers (mtx (shared s)) = cnt holdsR (goroutines s);
  inv_writer : Nat.b2n (sync.writer (mtx (shared s))) = cnt holdsW (goroutines s);
  (* the cached expiry is the initial one or the one a refresh sets *)
  inv_expires :
    expires (shared s) = expires w0 \/
    expires (shared s) = time.Add (oauth2.Expiry (token w0)) (-10 * time.Minute);
  (* the cached assertion is the token's as soon as line 116 has run once;
     before that every goroutine is at or before line 116 *)
  inv_assertion :
    assertion (shared s) = oauth2.AccessToken (token w0) \/
    (assertion (shared s) = assertion w0 /\ expires (shared s) = expires w0 /\
     cnt pastAssign (goroutines s) = O);
  (* before the first refresh every goroutine is at or before line 115 *)
  inv_unrefreshed :
    refreshed s = O ->
    expires (shared s) = expires w0 /\ cnt pastRecheck (goroutines s) = O;
  (* what the goroutines return *)
  inv_yields :
    Forall (fun p => forall r, yields p = Some r ->
                               r = (oauth2.AccessToken (token w0), None))
      (goroutines s);
  (* as long as the refreshed cache has not expired, one refresh at most *)
  inv_once :
    clock s <= time.Add (oauth2.Expiry (token w0)) (-10 * time.Minute) ->
    (refreshed s <= 1)%nat /\
    (refreshed s = 1%nat ->
     cnt inBody (goroutines s) = 1%nat \/
     (cnt inBody (goroutines s) = O /\
      expires (shared s) =
      time.Add (oauth2.Expiry (token w0)) (-10 * time.Minute)))
}.

End Invariant.

(** Two goroutines that both find the cache expired, the first of which
    runs its write-locked section before the second. *)
Definition two_callers : list event :=
  [Step 0; Step 0; Step 1; Step 1; Step 0; Step 1;
   Step 0; Step 0; Step 0; Step 0; Step 0; Step 0;
   Step 1; Step 1; Step 1; Step 1; Step 1; Step 1].

(** The same when the second finds the cache refreshed at its second test,
    and so has two statements less to execute. *)
Definition two_callers_one_refresh : list event :=
  [Step 0; Step 0; Step 1; Step 1; Step 0; Step 1;
   Step 0; Step 0; Step 0; Step 0; Step 0; Step 0;
   Step 1; Step 1; Step 1; Step 1].

(** ** Concrete inputs *)

Module Examples.

(** A collaborator that accepts every configuration. *)
Definition accepting (tenantID clientID : string)
    (options : ClientAssertionCredentialOptions unit) : unit + string :=
  inl tt.

(** The environment the workload identity webhook sets up. *)
Definition env_full : gmap string string :=
  <[azureClientID := "abc"]>
    (<[azureTenantID := "def"]>
       (<[azureFederatedTokentoken := "tok1"]> ∅)).

(** The same with an empty value for one of the variables. *)
Definition env_empty_token : gmap string string :=
  <[azureFederatedTokentoken := ""]> env_full.

Definition env_empty_clientID : gmap string string :=
  <[azureClientID := ""]> env_full.

Definition env_empty_tenantID : gmap string string :=
  <[azureTenantID := ""]> env_full.

(** An instant of the year 2026, in nanoseconds since the zero instant. *)
Definition t0 : time.Time := 63900000000 * time.Second.

(** A token that expires ten minutes and one second after [t0]. *)
Definition short_token : oauth2.Token :=
  {| oauth2.AccessToken := "tok1"; oauth2.TokenType := "";
     oauth2.RefreshToken := "";
     oauth2.Expiry := t0 + 10 * time.Minute + time.Second |}.

(** A token that expires an hour after [t0]. *)
Definition hour_token : oauth2.Token :=
  {| oauth2.AccessToken := "tok1"; oauth2.TokenType := "";
     oauth2.RefreshToken := "";
     oauth2.Expiry := t0 + 60 * time.Minute |}.

(** The token that the environment alone gives: no expiry. *)
Definition env_token : oauth2.Token :=
  oauth2.set_AccessToken "tok1" oauth2.zero.

(** Options that give an expiry but leave the access token to the environment. *)
Definition expiry_only : WorkloadIdentityFederationCredentialOptions unit :=
  {| WithClientOptions := tt;
     AdditionallyAllowedTenants := [];
     ClientID := "";
     DisableInstanceDiscovery := false;
     TenantID := "";
     FederatedToken :=
       {| oauth2.AccessToken := ""; oauth2.TokenType := "";
          oauth2.RefreshToken := "";
          oauth2.Expiry := t0 + 60 * time.Minute |} |}.

(** Credentials as the constructor returns them. *)
Definition w_short : WorkloadIdentityFederationCredential unit :=
  constructed short_token tt.

Definition w_hour : WorkloadIdentityFederationCredential unit :=
  constructed hour_token tt.

Definition w_env : WorkloadIdentityFederationCredential unit :=
  constructed env_token tt.

End Examples.

(** ** Further notions for the executions *)

(** Program points: the assignment of line 118 is next; the [else] branch
    of line 120 has been taken and its return is not finished. *)
Definition atExpires (p : pc) : bool :=
  match p with AtExpires => true | _ => false end.

Definition onFastPath (p : pc) : bool :=
  match p with AtReturnFast | AtRUnlockDeferred _ => true | _ => false end.

(** How many statements of goroutines a schedule executes. *)
Fixpoint steps_of (sched : list event) : nat :=
  match sched with
  | [] => O
  | Step _ :: sched => S (steps_of sched)
  | Tick _ :: sched => steps_of sched
  end.

Section FurtherInvariants.

Context {ClientAssertionCredential : Type}.
Variable w0 : WorkloadIdentityFederationCredential ClientAssertionCredential.

(** Readers and the writer exclude each other, and the cached pair is the
    initial one or the refreshed one except while a goroutine is between
    the two assignments. *)
Record exclusive (s : system ClientAssertionCredential) : Prop := mkExclusive {
  excl_readers :
    sync.writer (mtx (shared s)) = true -> cnt holdsR (goroutines s) = O;
  excl_pair :
    (assertion (shared s) = assertion w0 /\ expires (shared s) = expires w0) \/
    (assertion (shared s) = oauth2.AccessToken (token w0) /\
     expires (shared s) = time.Add (oauth2.Expiry (token w0)) (-10 * time.Minute)) \/
    (assertion (shared s) = oauth2.AccessToken (token w0) /\
     (1 <= cnt atExpires (goroutines s))%nat)
}.

(** When the refreshed cache is stale as well, every goroutine that is past
    the tests has entered the inner body, and none is on the fast path. *)
Record herd (s : system ClientAssertionCredential) : Prop := mkHerd {
  herd_refreshed : refreshed s = cnt pastRecheck (goroutines s);
  herd_no_fast : cnt onFastPath (goroutines s) = O
}.

End FurtherInvariants.


(** An environment without a tenant. *)
Definition env_no_tenant : gmap string string :=
  <[azureClientID := "abc"]> (<[azureFederatedTokentoken := "tok1"]> ∅).

(** A collaborator that refuses every configuration. *)
Definition refusing (tenantID clientID : string)
    (options : ClientAssertionCredentialOptions unit) : unit + string :=
  inr "invalid tenant".

(** A credential whose mutex another goroutine has read-locked. *)
Definition w_read_locked : WorkloadIdentityFederationCredential unit :=
  set_mtx {| sync.readers := 1; sync.writer := false |}
    (after_refresh Examples.w_hour).

(** * Properties *)

(** ** Instants *)

Lemma Before_lt (t u : time.Time) : time.Before t u = true <-> t < u.
Proof. unfold time.Before. apply Z.ltb_lt. Qed.

Lemma Before_ge (t u : time.Time) : time.Before t u = false <-> u <= t.
Proof. unfold time.Before. rewrite Z.ltb_ge. reflexivity. Qed.

Lemma ten_minutes : -10 * time.Minute = -600000000000.
Proof. reflexivity. Qed.

(** ** One call of [getAssertion] on a credential whose mutex is free *)

Section OneCall.

Context {ClientAssertionCredential : Type}.
Implicit Types w : WorkloadIdentityFederationCredential ClientAssertionCredential.
Implicit Types now : time.Time.

(** The state the inner body leaves behind. *)
Lemma refresh_returns w :
  refresh w =
  Returns tt (after_refresh w).
Proof. reflexivity. Qed.

Lemma getAssertion_fast w now1 now2 :
  mtx w = sync.zero ->
  expired w now1 = false ->
  getAssertion now1 now2 w = Returns (assertion w, None) w.
Proof.
  intros Hm Hfresh. destruct w as [a t c x m]. simpl in Hm. subst m.
  unfold getAssertion, bind, read, on_mtx, ret, expired in *; simpl in *.
  rewrite Hfresh. reflexivity.
Qed.

Lemma getAssertion_rechecked w now1 now2 :
  mtx w = sync.zero ->
  expired w now1 = true ->
  expired w now2 = false ->
  getAssertion now1 now2 w = Returns (assertion w, None) w.
Proof.
  intros Hm Hstale Hfresh. destruct w as [a t c x m]. simpl in Hm. subst m.
  unfold getAssertion, bind, read, on_mtx, ret, expired in *; simpl in *.
  rewrite Hstale; simpl. rewrite Hfresh. reflexivity.
Qed.

Lemma getAssertion_refreshed w now1 now2 :
  mtx w = sync.zero ->
  expired w now1 = true ->
  expired w now2 = true ->
  getAssertion now1 now2 w =
  Returns (oauth2.AccessToken (token w), None) (after_refresh w).
Proof.
  intros Hm Hs1 Hs2. destruct w as [a t c x m]. simpl in Hm. subst m.
  unfold getAssertion, bind, read, on_mtx, ret, expired, after_refresh in *; simpl in *.
  rewrite Hs1; simpl. rewrite Hs2. reflexivity.
Qed.

(** The three cases in one statement, by the branch the call takes. *)
Lemma getAssertion_by_branch w now1 now2 :
  mtx w = sync.zero ->
  getAssertion now1 now2 w =
  match branch_taken now1 now2 w with
  | FastPath | Rechecked => Returns (assertion w, None) w
  | Refreshed => Returns (oauth2.AccessToken (token w), None) (after_refresh w)
  end.
Proof.
  intros Hm. unfold branch_taken.
  destruct (expired w now1) eqn:H1; [destruct (expired w now2) eqn:H2 |].
  - by apply getAssertion_refreshed.
  - by apply getAssertion_rechecked.
  - by apply getAssertion_fast.
Qed.

(** A call returns, and leaves the mutex free and the token as it was. *)
Lemma getAssertion_returns w now1 now2 :
  mtx w = sync.zero ->
  exists a w',
    getAssertion now1 now2 w = Returns (a, None) w' /\
    mtx w' = sync.zero /\ token w' = token w /\ cred w' = cred w.
Proof.
  intros Hm. rewrite (getAssertion_by_branch w now1 now2 Hm).
  destruct (branch_taken now1 now2 w); eexists _, _; (split; [reflexivity |]);
    simpl; auto.
Qed.

End OneCall.

(** ** Calls one after the other *)

Section Calls.

Context {ClientAssertionCredential : Type}.
Implicit Types w : WorkloadIdentityFederationCredential ClientAssertionCredential.
Implicit Types clock : list (time.Time * time.Time).

Lemma getAssertions_cons w now1 now2 clock r w' :
  getAssertion now1 now2 w = Returns r w' ->
  getAssertions ((now1, now2) :: clock) w =
  match getAssertions clock w' with
  | Returns rs w'' => Returns (r :: rs) w''
  | Blocked => Blocked
  | Fatal => Fatal
  end.
Proof.
  intros H. simpl. unfold bind at 1. rewrite H.
  unfold bind, ret. destruct (getAssertions clock w'); reflexivity.
Qed.

(** Any sequence of calls returns: no call waits for ever or dies, and
    every result carries a nil error. *)
Lemma getAssertions_return w clock :
  mtx w = sync.zero ->
  exists rs w',
    getAssertions clock w = Returns rs w' /\
    length rs = length clock /\
    Forall (fun r => r.2 = None) rs /\
    mtx w' = sync.zero /\ token w' = token w.
Proof.
  revert w. induction clock as [| [now1 now2] clock IH]; intros w Hm.
  - exists [], w. repeat split; auto.
  - destruct (getAssertion_returns w now1 now2 Hm) as (a & w1 & Hcall & Hm1 & Ht1 & _).
    destruct (IH w1 Hm1) as (rs & w' & Hrest & Hlen & Hnil & Hm' & Ht').
    exists ((a, None) :: rs), w'.
    rewrite (getAssertions_cons _ _ _ _ _ _ Hcall), Hrest.
    repeat split; simpl; auto; congruence.
Qed.

(** While the cache is fresh at the first reading of every call, the calls
    return the cached assertion and change nothing. *)
Lemma getAssertions_fresh w clock :
  mtx w = sync.zero ->
  Forall (fun nn => expired w nn.1 = false) clock ->
  getAssertions clock w = Returns (map (fun _ => (assertion w, None)) clock) w.
Proof.
  intros Hm. induction clock as [| [now1 now2] clock IH]; intros Hall.
  - reflexivity.
  - inversion Hall as [| ? ? Hhd Htl]; subst. simpl in Hhd.
    rewrite (getAssertions_cons _ _ _ _ _ _ (getAssertion_fast w now1 now2 Hm Hhd)).
    rewrite (IH Htl). reflexivity.
Qed.

Lemma after_refresh_idem w : after_refresh (after_refresh w) = after_refresh w.
Proof. reflexivity. Qed.

(** When the expiry of the token less ten minutes and the cached expiry are
    both earlier than every clock reading, every call runs the inner body
    and returns the access token of the token. *)
Lemma getAssertions_stale w clock :
  mtx w = sync.zero ->
  readings_after (expires w) clock ->
  readings_after (time.Add (oauth2.Expiry (token w)) (-10 * time.Minute)) clock ->
  branches clock w = map (fun _ => Refreshed) clock /\
  getAssertions clock w =
  Returns (map (fun _ => (oauth2.AccessToken (token w), None)) clock)
    (match clock with [] => w | _ :: _ => after_refresh w end).
Proof.
  unfold readings_after.
  revert w. induction clock as [| [now1 now2] clock IH]; intros w Hm Hx HE.
  - split; reflexivity.
  - inversion Hx as [| ? ? [Hx1 Hx2] Hxs]; subst.
    inversion HE as [| ? ? _ HEs]; subst. simpl in Hx1, Hx2.
    assert (Hs1 : expired w now1 = true) by (by apply Before_lt).
    assert (Hs2 : expired w now2 = true) by (by apply Before_lt).
    pose proof (getAssertion_refreshed w now1 now2 Hm Hs1 Hs2) as Hcall.
    destruct (IH (after_refresh w)) as [Hb Hr]; [done | exact HEs | exact HEs |].
    split.
    + simpl. rewrite Hcall. unfold branch_taken. rewrite Hs1, Hs2. by rewrite Hb.
    + rewrite (getAssertions_cons _ _ _ _ _ _ Hcall), Hr. simpl.
      f_equal. by destruct clock.
Qed.

End Calls.

(** ** The constructor *)

Section Constructor.

Context {ClientOptions ClientAssertionCredential : Type}.
Context `{!Inhabited ClientOptions}.
Variable newCAC :
  string -> string -> ClientAssertionCredentialOptions ClientOptions ->
  ClientAssertionCredential + string.
Implicit Types opts : option (WorkloadIdentityFederationCredentialOptions ClientOptions).
Implicit Types env : gmap string string.

Lemma eqb_empty_true (s : string) : s = "" -> String.eqb s "" = true.
Proof. intros ->. reflexivity. Qed.

Lemma eqb_empty_false (s : string) : s <> "" -> String.eqb s "" = false.
Proof. intros H. by apply String.eqb_neq. Qed.

(** What the lines 68 to 73 (and 80 to 85) compute for a supplied value. *)
Lemma supplied_lookup explicit env key v (e : error) :
  supplied explicit (env !! key) v ->
  (if String.eqb explicit "" then
     let '(x, ok) := LookupEnv env key in
     if negb ok then Failure e else Success x
   else Success explicit) = Success v.
Proof.
  intros [[Hne ->] | [-> Henv]].
  - by rewrite eqb_empty_false.
  - simpl. unfold LookupEnv. by rewrite Henv.
Qed.

(** What the lines 74 to 79 compute for a supplied token. *)
Lemma token_supplied_lookup explicit env t :
  token_supplied explicit (env !! azureFederatedTokentoken) t ->
  (if String.eqb (oauth2.AccessToken explicit) "" then
     let '(v, ok) := LookupEnv env azureFederatedTokentoken in
     if negb ok || String.eqb (oauth2.AccessToken (oauth2.set_AccessToken v explicit)) ""
     then Failure errorTokenNotSpecified
     else Success (oauth2.set_AccessToken v explicit)
   else Success explicit) = Success t.
Proof.
  intros [[Hne ->] | [Hempty (v & Henv & Hv & ->)]].
  - by rewrite eqb_empty_false.
  - rewrite (eqb_empty_true _ Hempty). unfold LookupEnv. rewrite Henv. simpl.
    by rewrite eqb_empty_false.
Qed.

(** With the three fields supplied the constructor reaches the
    collaborator, and its result is decided there. *)
Lemma constructor_resolved opts env c t tn :
  let o := options_or_zero opts in
  supplied (ClientID o) (env !! azureClientID) c ->
  token_supplied (FederatedToken o) (env !! azureFederatedTokentoken) t ->
  supplied (TenantID o) (env !! azureTenantID) tn ->
  NewWorkloadIdentityFederationCredential newCAC opts env =
  match newCAC tn c (caco_of o) with
  | inl cr => Success (constructed t cr)
  | inr msg => Failure (collaboratorError msg)
  end.
Proof.
  intros o Hc Ht Htn. unfold NewWorkloadIdentityFederationCredential.
  fold (options_or_zero opts). fold o. cbv zeta.
  rewrite (supplied_lookup _ _ _ _ errorClientIDNotSpecified Hc).
  cbn [result_bind].
  rewrite (token_supplied_lookup _ _ _ Ht).
  cbn [result_bind].
  rewrite (supplied_lookup _ _ _ _ errorTenantIDNotSpecified Htn).
  cbn [result_bind]. reflexivity.
Qed.

Lemma constructor_no_clientID opts env :
  let o := options_or_zero opts in
  ClientID o = "" -> env !! azureClientID = None ->
  NewWorkloadIdentityFederationCredential newCAC opts env =
  Failure errorClientIDNotSpecified.
Proof.
  intros o Hc Henv. unfold NewWorkloadIdentityFederationCredential.
  fold (options_or_zero opts). fold o. cbv zeta.
  rewrite Hc. simpl. unfold LookupEnv. rewrite Henv. reflexivity.
Qed.

Lemma constructor_no_token opts env c :
  let o := options_or_zero opts in
  supplied (ClientID o) (env !! azureClientID) c ->
  oauth2.AccessToken (FederatedToken o) = "" ->
  env !! azureFederatedTokentoken = None \/ env !! azureFederatedTokentoken = Some "" ->
  NewWorkloadIdentityFederationCredential newCAC opts env =
  Failure errorTokenNotSpecified.
Proof.
  intros o Hc Ht Henv. unfold NewWorkloadIdentityFederationCredential.
  fold (options_or_zero opts). fold o. cbv zeta.
  rewrite (supplied_lookup _ _ _ _ errorClientIDNotSpecified Hc).
  cbn [result_bind]. rewrite Ht. simpl String.eqb. cbv iota.
  unfold LookupEnv. destruct Henv as [-> | ->]; reflexivity.
Qed.

Lemma constructor_no_tenantID opts env c t :
  let o := options_or_zero opts in
  supplied (ClientID o) (env !! azureClientID) c ->
  token_supplied (FederatedToken o) (env !! azureFederatedTokentoken) t ->
  TenantID o = "" -> env !! azureTenantID = None ->
  NewWorkloadIdentityFederationCredential newCAC opts env =
  Failure errorTenantIDNotSpecified.
Proof.
  intros o Hc Ht Htn Henv. unfold NewWorkloadIdentityFederationCredential.
  fold (options_or_zero opts). fold o. cbv zeta.
  rewrite (supplied_lookup _ _ _ _ errorClientIDNotSpecified Hc).
  cbn [result_bind].
  rewrite (token_supplied_lookup _ _ _ Ht).
  cbn [result_bind].
  rewrite Htn. simpl String.eqb. cbv iota.
  unfold LookupEnv. rewrite Henv. reflexivity.
Qed.

Lemma supplied_or_missing (explicit : string) (fromEnv : option string) :
  (exists v, supplied explicit fromEnv v) \/ (explicit = "" /\ fromEnv = None).
Proof.
  destruct (decide (explicit = "")) as [He | He].
  - destruct fromEnv as [v |].
    + left. exists v. by right.
    + by right.
  - left. exists explicit. by left.
Qed.

Lemma token_supplied_or_missing (explicit : oauth2.Token) (fromEnv : option string) :
  (exists t, token_supplied explicit fromEnv t) \/
  (oauth2.AccessToken explicit = "" /\ (fromEnv = None \/ fromEnv = Some "")).
Proof.
  destruct (decide (oauth2.AccessToken explicit = "")) as [He | He].
  - destruct fromEnv as [v |].
    + destruct (decide (v = "")) as [-> | Hv].
      * right. auto.
      * left. exists (oauth2.set_AccessToken v explicit). right. eauto.
    + right. auto.
  - left. exists explicit. by left.
Qed.

(** Every credential the constructor returns is a [constructed] one: its
    cache is empty, its cached expiry is the zero instant, its mutex free. *)
Lemma constructor_success opts env w :
  NewWorkloadIdentityFederationCredential newCAC opts env = Success w ->
  let o := options_or_zero opts in
  exists c t tn cr,
    supplied (ClientID o) (env !! azureClientID) c /\
    token_supplied (FederatedToken o) (env !! azureFederatedTokentoken) t /\
    supplied (TenantID o) (env !! azureTenantID) tn /\
    newCAC tn c (caco_of o) = inl cr /\
    w = constructed t cr.
Proof.
  intros H o.
  destruct (supplied_or_missing (ClientID o) (env !! azureClientID))
    as [[c Hc] | [Hc Hce]].
  2:{ rewrite (constructor_no_clientID opts env Hc Hce) in H. discriminate. }
  destruct (token_supplied_or_missing (FederatedToken o)
              (env !! azureFederatedTokentoken)) as [[t Ht] | [Ht Hte]].
  2:{ rewrite (constructor_no_token opts env c Hc Ht Hte) in H. discriminate. }
  destruct (supplied_or_missing (TenantID o) (env !! azureTenantID))
    as [[tn Htn] | [Htn Htne]].
  2:{ rewrite (constructor_no_tenantID opts env c t Hc Ht Htn Htne) in H.
      discriminate. }
  rewrite (constructor_resolved opts env c t tn Hc Ht Htn) in H. fold o in H.
  destruct (newCAC tn c (caco_of o)) as [cr | msg] eqn:Hcr; [| discriminate].
  exists c, t, tn, cr. repeat split; auto. congruence.
Qed.

Lemma constructor_success_state opts env w :
  NewWorkloadIdentityFederationCredential newCAC opts env = Success w ->
  assertion w = "" /\ expires w = time.zero /\ mtx w = sync.zero.
Proof.
  intros H. destruct (constructor_success opts env w H)
    as (c & t & tn & cr & _ & _ & _ & _ & ->).
  repeat split.
Qed.

End Constructor.

(** * The properties of the specification *)

Section Cache.

Context {ClientAssertionCredential : Type}.
Implicit Types w : WorkloadIdentityFederationCredential ClientAssertionCredential.
Implicit Types clock : list (time.Time * time.Time).


(** C2.  While the current time is strictly before the cached expiry, any
    number of calls of [getAssertion] one after the other each return the
    cached assertion and leave the whole credential as it was. *)
Theorem C2_fast_path_idempotent w clock :
  mtx w = sync.zero ->
  Forall (fun nn => nn.1 < expires w) clock ->
  getAssertions clock w =
  Returns (map (fun _ => (assertion w, None)) clock) w.
Proof.
  intros Hm Hall. apply getAssertions_fresh; [exact Hm |].
  eapply Forall_impl; [exact Hall |].
  intros [now1 now2] Hlt. simpl in *. apply Before_ge. lia.
Qed.

(** C6 (as the code has it).  For a token that expires at [t0] plus ten
    minutes plus one second, a refresh at [t0] leaves the cached expiry at
    [t0] plus one second; the cache is then valid at [t0] and still valid
    at [t0] plus one second, and it is expired exactly at the instants
    later than that, the first of which is [t0] plus one second plus one
    nanosecond. *)
Theorem C6_boundary_is_inclusive w t0 :
  mtx w = sync.zero ->
  oauth2.Expiry (token w) = t0 + 10 * time.Minute + time.Second ->
  expired w t0 = true ->
  exists w',
    getAssertion t0 t0 w = Returns (oauth2.AccessToken (token w), None) w' /\
    expires w' = t0 + time.Second /\
    expired w' t0 = false /\
    expired w' (t0 + time.Second) = false /\
    expired w' (t0 + time.Second + time.Nanosecond) = true /\
    forall t, expired w' t = true <-> t0 + time.Second < t.
Proof.
  intros Hm HE Hstale. exists (after_refresh w).
  assert (Hx : expires (after_refresh w) = t0 + time.Second).
  { simpl. rewrite HE. unfold time.Add. rewrite ten_minutes.
    change (10 * time.Minute) with 600000000000. lia. }
  split; [by apply getAssertion_refreshed |].
  split; [exact Hx |].
  unfold expired. rewrite Hx.
  change time.Second with 1000000000. change time.Nanosecond with 1.
  repeat split.
  - apply Before_ge. lia.
  - apply Before_ge. lia.
  - apply Before_lt. lia.
  - apply Before_lt.
  - apply Before_lt.
Qed.

End Cache.

Section Construction.

Context {ClientOptions ClientAssertionCredential : Type}.
Context `{!Inhabited ClientOptions}.
Variable newCAC :
  string -> string -> ClientAssertionCredentialOptions ClientOptions ->
  ClientAssertionCredential + string.
Implicit Types opts : option (WorkloadIdentityFederationCredentialOptions ClientOptions).
Implicit Types env : gmap string string.
Implicit Types clock : list (time.Time * time.Time).


(** C4 (as the code has it).  With the three environment variables set to
    non-empty values and options whose [FederatedToken.AccessToken] is the
    empty string, the constructor does not fail with
    [errorTokenNotSpecified]: the empty option falls back on the value of
    AZURE_FEDERATED_TOKEN, which becomes the access token of the
    credential, and the constructor goes on to the collaborator. *)
Theorem C4_empty_option_falls_back o env c t tn :
  env !! azureClientID = Some c -> c <> "" ->
  env !! azureFederatedTokentoken = Some t -> t <> "" ->
  env !! azureTenantID = Some tn -> tn <> "" ->
  oauth2.AccessToken (FederatedToken o) = "" ->
  NewWorkloadIdentityFederationCredential newCAC (Some o) env <>
  Failure errorTokenNotSpecified /\
  NewWorkloadIdentityFederationCredential newCAC (Some o) env =
  match newCAC (if String.eqb (TenantID o) "" then tn else TenantID o)
               (if String.eqb (ClientID o) "" then c else ClientID o)
               (caco_of o) with
  | inl cr => Success (constructed (oauth2.set_AccessToken t (FederatedToken o)) cr)
  | inr msg => Failure (collaboratorError msg)
  end.
Proof.
  intros Hc Hcne Ht Htne Htn Htnne Hempty.
  assert (Hres : NewWorkloadIdentityFederationCredential newCAC (Some o) env =
    match newCAC (if String.eqb (TenantID o) "" then tn else TenantID o)
                 (if String.eqb (ClientID o) "" then c else ClientID o)
                 (caco_of o) with
    | inl cr => Success (constructed (oauth2.set_AccessToken t (FederatedToken o)) cr)
    | inr msg => Failure (collaboratorError msg)
    end).
  { apply (constructor_resolved newCAC (Some o) env).
    - simpl. destruct (String.eqb_spec (ClientID o) ""); [by right | by left].
    - simpl. right. split; [exact Hempty |]. by exists t.
    - simpl. destruct (String.eqb_spec (TenantID o) ""); [by right | by left]. }
  split; [| exact Hres].
  rewrite Hres. by destruct (newCAC _ _ _).
Qed.

(** C5.  On a credential that the constructor has returned, every call of
    [getAssertion], in any sequence of calls and whatever the clock
    readings, returns, and returns a nil error. *)
Theorem C5_getAssertion_never_fails opts env w clock :
  NewWorkloadIdentityFederationCredential newCAC opts env = Success w ->
  exists rs w',
    getAssertions clock w = Returns rs w' /\
    length rs = length clock /\
    Forall (fun r => r.2 = None) rs.
Proof.
  intros Hnew.
  destruct (constructor_success_state newCAC opts env w Hnew) as (_ & _ & Hm).
  destruct (getAssertions_return w clock Hm) as (rs & w' & Hr & Hlen & Hnil & _).
  by exists rs, w'.
Qed.

(** C7.  With AZURE_CLIENT_ID=abc, AZURE_TENANT_ID=def and
    AZURE_FEDERATED_TOKEN=tok1 in the environment and nil options, the
    constructor succeeds as soon as the collaborator accepts the tenant
    "def" and the client "abc", and every later call of [getAssertion],
    made by a clock that is past the zero instant, returns "tok1". *)
Theorem C7_environment_scenario env cr clock :
  env !! azureClientID = Some "abc" ->
  env !! azureTenantID = Some "def" ->
  env !! azureFederatedTokentoken = Some "tok1" ->
  newCAC "def" "abc" (caco_of zeroOptions) = inl cr ->
  readings_after time.zero clock ->
  exists w w',
    NewWorkloadIdentityFederationCredential newCAC None env = Success w /\
    getAssertions clock w = Returns (map (fun _ => ("tok1", None)) clock) w'.
Proof.
  intros Hc Htn Ht Hcr Hclock.
  pose (t := oauth2.set_AccessToken "tok1" oauth2.zero).
  assert (Hnew : NewWorkloadIdentityFederationCredential newCAC None env =
                 Success (constructed t cr)).
  { rewrite (constructor_resolved newCAC None env "abc" t "def").
    - simpl. by rewrite Hcr.
    - by right.
    - right. split; [done |]. by exists "tok1".
    - by right. }
  destruct (getAssertions_stale (constructed t cr) clock) as [_ Hr].
  - reflexivity.
  - exact Hclock.
  - unfold readings_after in *. eapply Forall_impl; [exact Hclock |].
    intros [n1 n2]. simpl. unfold time.Add, time.zero. rewrite ten_minutes. lia.
  - eexists _, _. split; [exact Hnew | exact Hr].
Qed.

(** C9 (as the code has it).  For every credential whose federated token
    has the zero expiry, and whose cached expiry is the zero instant (as
    the constructor leaves it) or the zero instant less ten minutes (as a
    refresh leaves it), every call made by a clock that is past the zero
    instant takes the refresh branch, never the fast path, and leaves the
    cached expiry at the zero instant less ten minutes.  The token has the
    zero expiry when its value comes from AZURE_FEDERATED_TOKEN and the
    options give no expiry, as with nil options. *)
Theorem C9_zero_expiry_always_refreshes :
  (forall (w : WorkloadIdentityFederationCredential ClientAssertionCredential) clock,
     mtx w = sync.zero ->
     oauth2.Expiry (token w) = time.zero ->
     expires w = time.zero \/ expires w = time.zero - 10 * time.Minute ->
     readings_after time.zero clock ->
     branches clock w = map (fun _ => Refreshed) clock /\
     exists w',
       getAssertions clock w =
       Returns (map (fun _ => (oauth2.AccessToken (token w), None)) clock) w' /\
       (clock <> [] -> expires w' = time.zero - 10 * time.Minute)) /\
  (forall opts env w,
     NewWorkloadIdentityFederationCredential newCAC opts env = Success w ->
     oauth2.AccessToken (FederatedToken (options_or_zero opts)) = "" ->
     oauth2.Expiry (FederatedToken (options_or_zero opts)) = time.zero ->
     env !! azureFederatedTokentoken = Some (oauth2.AccessToken (token w)) /\
     oauth2.Expiry (token w) = time.zero /\
     expires w = time.zero /\ mtx w = sync.zero) /\
  (forall env w,
     NewWorkloadIdentityFederationCredential newCAC None env = Success w ->
     oauth2.Expiry (token w) = time.zero).
Proof.
  assert (Hsourced : forall opts env w,
     NewWorkloadIdentityFederationCredential newCAC opts env = Success w ->
     oauth2.AccessToken (FederatedToken (options_or_zero opts)) = "" ->
     oauth2.Expiry (FederatedToken (options_or_zero opts)) = time.zero ->
     env !! azureFederatedTokentoken = Some (oauth2.AccessToken (token w)) /\
     oauth2.Expiry (token w) = time.zero /\
     expires w = time.zero /\ mtx w = sync.zero).
  { intros opts env w Hnew Hempty Hzero.
    destruct (constructor_success newCAC opts env w Hnew)
      as (c & t & tn & cr & _ & Ht & _ & _ & ->).
    destruct Ht as [[Hne _] | [_ (v & Henv & _ & ->)]]; [congruence |].
    simpl. auto. }
  split; [| split; [exact Hsourced |]].
  - intros w clock Hm HE Hx Hclock.
    assert (HE' : time.Add (oauth2.Expiry (token w)) (-10 * time.Minute) =
                  time.zero - 10 * time.Minute) by (by rewrite HE).
    destruct (getAssertions_stale w clock Hm) as [Hb Hr].
    + unfold readings_after in *. eapply Forall_impl; [exact Hclock |].
      intros [n1 n2]. simpl.
      destruct Hx as [-> | ->]; unfold time.zero;
        change (10 * time.Minute) with 600000000000; lia.
    + rewrite HE'. unfold readings_after in *.
      eapply Forall_impl; [exact Hclock |].
      intros [n1 n2]. simpl. unfold time.zero.
      change (10 * time.Minute) with 600000000000. lia.
    + split; [exact Hb |]. eexists. split; [exact Hr |].
      destruct clock; [done |]. intros _. exact HE'.
  - intros env w Hnew. by apply (Hsourced None env w Hnew).
Qed.

(** C10.  The test for the empty string is made for the federated token
    only.  With the client ID supplied, an AZURE_FEDERATED_TOKEN that is
    set to the empty string (and no token in the options) makes the
    constructor fail with [errorTokenNotSpecified].  An AZURE_CLIENT_ID or
    an AZURE_TENANT_ID that is set to the empty string (and no such option)
    never gives the error of that field: with the other fields supplied
    the constructor goes on to the collaborator with the empty value. *)
Theorem C10_empty_check_is_asymmetric opts env :
  let o := options_or_zero opts in
  (forall c,
     supplied (ClientID o) (env !! azureClientID) c ->
     oauth2.AccessToken (FederatedToken o) = "" ->
     env !! azureFederatedTokentoken = Some "" ->
     NewWorkloadIdentityFederationCredential newCAC opts env =
     Failure errorTokenNotSpecified) /\
  (forall t tn,
     ClientID o = "" -> env !! azureClientID = Some "" ->
     token_supplied (FederatedToken o) (env !! azureFederatedTokentoken) t ->
     supplied (TenantID o) (env !! azureTenantID) tn ->
     NewWorkloadIdentityFederationCredential newCAC opts env =
     match newCAC tn "" (caco_of o) with
     | inl cr => Success (constructed t cr)
     | inr msg => Failure (collaboratorError msg)
     end) /\
  (forall c t,
     supplied (ClientID o) (env !! azureClientID) c ->
     token_supplied (FederatedToken o) (env !! azureFederatedTokentoken) t ->
     TenantID o = "" -> env !! azureTenantID = Some "" ->
     NewWorkloadIdentityFederationCredential newCAC opts env =
     match newCAC "" c (caco_of o) with
     | inl cr => Success (constructed t cr)
     | inr msg => Failure (collaboratorError msg)
     end) /\
  (ClientID o = "" -> env !! azureClientID = Some "" ->
   NewWorkloadIdentityFederationCredential newCAC opts env <>
   Failure errorClientIDNotSpecified) /\
  (TenantID o = "" -> env !! azureTenantID = Some "" ->
   NewWorkloadIdentityFederationCredential newCAC opts env <>
   Failure errorTenantIDNotSpecified).
Proof.
  intros o.
  assert (Hclient : forall t tn,
     ClientID o = "" -> env !! azureClientID = Some "" ->
     token_supplied (FederatedToken o) (env !! azureFederatedTokentoken) t ->
     supplied (TenantID o) (env !! azureTenantID) tn ->
     NewWorkloadIdentityFederationCredential newCAC opts env =
     match newCAC tn "" (caco_of o) with
     | inl cr => Success (constructed t cr)
     | inr msg => Failure (collaboratorError msg)
     end).
  { intros t tn Hc Hce Ht Htn.
    apply (constructor_resolved newCAC opts env "" t tn); auto. by right. }
  assert (Htenant : forall c t,
     supplied (ClientID o) (env !! azureClientID) c ->
     token_supplied (FederatedToken o) (env !! azureFederatedTokentoken) t ->
     TenantID o = "" -> env !! azureTenantID = Some "" ->
     NewWorkloadIdentityFederationCredential newCAC opts env =
     match newCAC "" c (caco_of o) with
     | inl cr => Success (constructed t cr)
     | inr msg => Failure (collaboratorError msg)
     end).
  { intros c t Hc Ht Htn Htne.
    apply (constructor_resolved newCAC opts env c t ""); auto. by right. }
  split; [| split; [exact Hclient | split; [exact Htenant | split]]].
  - intros c Hc Ht Henv. apply (constructor_no_token newCAC opts env c); auto.
  - intros Hc Hce.
    assert (Hsc : supplied (ClientID o) (env !! azureClientID) "") by (by right).
    destruct (token_supplied_or_missing (FederatedToken o)
                (env !! azureFederatedTokentoken)) as [[t Ht] | [Ht Hte]].
    2:{ rewrite (constructor_no_token newCAC opts env "" Hsc Ht Hte). discriminate. }
    destruct (supplied_or_missing (TenantID o) (env !! azureTenantID))
      as [[tn Htn] | [Htn Htne]].
    2:{ rewrite (constructor_no_tenantID newCAC opts env "" t Hsc Ht Htn Htne).
        discriminate. }
    rewrite (Hclient t tn Hc Hce Ht Htn). by destruct (newCAC _ _ _).
  - intros Htn Htne Hfail.
    destruct (supplied_or_missing (ClientID o) (env !! azureClientID))
      as [[c Hc] | [Hc Hce]].
    2:{ rewrite (constructor_no_clientID newCAC opts env Hc Hce) in Hfail.
        discriminate. }
    destruct (token_supplied_or_missing (FederatedToken o)
                (env !! azureFederatedTokentoken)) as [[t Ht] | [Ht Hte]].
    2:{ rewrite (constructor_no_token newCAC opts env c Hc Ht Hte) in Hfail.
        discriminate. }
    rewrite (Htenant c t Hc Ht Htn Htne) in Hfail.
    by destruct (newCAC _ _ _).
Qed.

End Construction.

(** ** The properties at concrete inputs *)


Lemma C2_fast_path_idempotent_witness :
  let w := after_refresh Examples.w_hour in
  let clock := [(Examples.t0, Examples.t0);
                (Examples.t0 + time.Minute, Examples.t0 + time.Minute)] in
  mtx w = sync.zero /\
  Forall (fun nn => nn.1 < expires w) clock /\
  getAssertions clock w = Returns [("tok1", None); ("tok1", None)] w.
Proof.
  assert (Hall : Forall (fun nn => nn.1 < expires (after_refresh Examples.w_hour))
            [(Examples.t0, Examples.t0);
             (Examples.t0 + time.Minute, Examples.t0 + time.Minute)])
    by (repeat constructor).
  split; [reflexivity |]. split; [exact Hall |].
  exact (C2_fast_path_idempotent (after_refresh Examples.w_hour) _ eq_refl Hall).
Defined.


(** C4 as it is stated fails: with the environment fully set and options
    whose access token is empty the constructor succeeds. *)
Lemma C4_counterexample :
  oauth2.AccessToken (FederatedToken (@zeroOptions unit _)) = "" /\
  NewWorkloadIdentityFederationCredential Examples.accepting
    (Some zeroOptions) Examples.env_full = Success Examples.w_env /\
  NewWorkloadIdentityFederationCredential Examples.accepting
    (Some zeroOptions) Examples.env_full <> Failure errorTokenNotSpecified.
Proof. split; [reflexivity |]. split; [reflexivity | discriminate]. Qed.

Lemma C4_empty_option_falls_back_witness :
  NewWorkloadIdentityFederationCredential Examples.accepting
    (Some zeroOptions) Examples.env_full <> Failure errorTokenNotSpecified /\
  NewWorkloadIdentityFederationCredential Examples.accepting
    (Some zeroOptions) Examples.env_full = Success Examples.w_env.
Proof.
  apply (C4_empty_option_falls_back Examples.accepting zeroOptions
           Examples.env_full "abc" "tok1" "def");
    first [reflexivity | discriminate].
Defined.

Lemma C5_getAssertion_never_fails_witness :
  NewWorkloadIdentityFederationCredential Examples.accepting None Examples.env_full =
  Success Examples.w_env /\
  exists rs w',
    getAssertions [(Examples.t0, Examples.t0); (Examples.t0, Examples.t0)]
      Examples.w_env = Returns rs w' /\
    length rs = 2%nat /\
    Forall (fun r => r.2 = None) rs.
Proof.
  split; [reflexivity |].
  exact (C5_getAssertion_never_fails Examples.accepting None Examples.env_full
           Examples.w_env _ eq_refl).
Defined.

(** C6 as it is stated fails: one second after the refresh the cache is
    not expired. *)
Lemma C6_counterexample :
  let w' := after_refresh Examples.w_short in
  mtx Examples.w_short = sync.zero /\
  oauth2.Expiry (token Examples.w_short) =
    Examples.t0 + 10 * time.Minute + time.Second /\
  getAssertion Examples.t0 Examples.t0 Examples.w_short = Returns ("tok1", None) w' /\
  branch_taken Examples.t0 Examples.t0 Examples.w_short = Refreshed /\
  expired w' Examples.t0 = false /\
  expired w' (Examples.t0 + time.Second) <> true.
Proof. repeat split; try reflexivity. discriminate. Qed.

Lemma C6_boundary_is_inclusive_witness :
  mtx Examples.w_short = sync.zero /\
  oauth2.Expiry (token Examples.w_short) =
    Examples.t0 + 10 * time.Minute + time.Second /\
  expired Examples.w_short Examples.t0 = true /\
  exists w',
    getAssertion Examples.t0 Examples.t0 Examples.w_short =
      Returns ("tok1", None) w' /\
    expires w' = Examples.t0 + time.Second /\
    expired w' Examples.t0 = false /\
    expired w' (Examples.t0 + time.Second) = false /\
    expired w' (Examples.t0 + time.Second + time.Nanosecond) = true /\
    forall t, expired w' t = true <-> Examples.t0 + time.Second < t.
Proof.
  split; [reflexivity |]. split; [reflexivity |]. split; [reflexivity |].
  exact (C6_boundary_is_inclusive Examples.w_short Examples.t0 eq_refl eq_refl eq_refl).
Defined.

Lemma C7_environment_scenario_witness :
  Examples.env_full !! azureClientID = Some "abc" /\
  Examples.env_full !! azureTenantID = Some "def" /\
  Examples.env_full !! azureFederatedTokentoken = Some "tok1" /\
  Examples.accepting "def" "abc" (caco_of zeroOptions) = inl tt /\
  readings_after time.zero [(Examples.t0, Examples.t0); (Examples.t0, Examples.t0)] /\
  exists w w',
    NewWorkloadIdentityFederationCredential Examples.accepting None Examples.env_full =
      Success w /\
    getAssertions [(Examples.t0, Examples.t0); (Examples.t0, Examples.t0)] w =
      Returns [("tok1", None); ("tok1", None)] w'.
Proof.
  assert (Hclock : readings_after time.zero
            [(Examples.t0, Examples.t0); (Examples.t0, Examples.t0)])
    by (repeat constructor).
  split; [reflexivity |]. split; [reflexivity |]. split; [reflexivity |].
  split; [reflexivity |]. split; [exact Hclock |].
  exact (C7_environment_scenario Examples.accepting Examples.env_full tt _
           eq_refl eq_refl eq_refl eq_refl Hclock).
Defined.

(** C9 as it is stated fails: a token whose value comes from the
    environment has the expiry that the options give, and the second call
    then takes the fast path. *)
Lemma C9_counterexample :
  let w := constructed
             (oauth2.set_AccessToken "tok1" (FederatedToken Examples.expiry_only)) tt in
  let later := Examples.t0 + time.Second in
  oauth2.AccessToken (FederatedToken Examples.expiry_only) = "" /\
  NewWorkloadIdentityFederationCredential Examples.accepting
    (Some Examples.expiry_only) Examples.env_full = Success w /\
  Examples.env_full !! azureFederatedTokentoken = Some (oauth2.AccessToken (token w)) /\
  oauth2.Expiry (token w) <> time.zero /\
  branches [(Examples.t0, Examples.t0); (later, later)] w = [Refreshed; FastPath].
Proof. repeat split; try reflexivity. discriminate. Qed.

Lemma C9_zero_expiry_always_refreshes_witness :
  let clock := [(Examples.t0, Examples.t0); (Examples.t0, Examples.t0)] in
  NewWorkloadIdentityFederationCredential Examples.accepting None Examples.env_full =
    Success Examples.w_env /\
  readings_after time.zero clock /\
  oauth2.Expiry (token Examples.w_env) = time.zero /\
  branches clock Examples.w_env = [Refreshed; Refreshed].
Proof.
  assert (Hclock : readings_after time.zero
            [(Examples.t0, Examples.t0); (Examples.t0, Examples.t0)])
    by (repeat constructor).
  destruct (C9_zero_expiry_always_refreshes Examples.accepting)
    as (Hcalls & Hsourced & Hnil).
  split; [reflexivity |]. split; [exact Hclock |].
  split; [exact (Hnil Examples.env_full Examples.w_env eq_refl) |].
  exact (proj1 (Hcalls Examples.w_env _ eq_refl eq_refl (or_introl eq_refl) Hclock)).
Defined.

Lemma C10_empty_check_is_asymmetric_witness :
  NewWorkloadIdentityFederationCredential Examples.accepting None
    Examples.env_empty_token = Failure errorTokenNotSpecified /\
  NewWorkloadIdentityFederationCredential Examples.accepting None
    Examples.env_empty_clientID = Success Examples.w_env /\
  NewWorkloadIdentityFederationCredential Examples.accepting None
    Examples.env_empty_tenantID = Success Examples.w_env.
Proof.
  assert (Ht : token_supplied oauth2.zero (Some "tok1") Examples.env_token).
  { right. split; [reflexivity |]. exists "tok1".
    split; [reflexivity |]. split; [discriminate | reflexivity]. }
  split; [| split].
  - apply (proj1 (C10_empty_check_is_asymmetric Examples.accepting None
                    Examples.env_empty_token) "abc");
      [right; split; reflexivity | reflexivity | reflexivity].
  - apply (proj1 (proj2 (C10_empty_check_is_asymmetric Examples.accepting None
                           Examples.env_empty_clientID)) Examples.env_token "def");
      [reflexivity | reflexivity | exact Ht | right; split; reflexivity].
  - apply (proj1 (proj2 (proj2 (C10_empty_check_is_asymmetric Examples.accepting None
                                  Examples.env_empty_tenantID))) "abc" Examples.env_token);
      [right; split; reflexivity | exact Ht | reflexivity | reflexivity].
Defined.

(** ** Concurrent callers *)

Section Counting.

Implicit Types f g h : pc -> bool.
Implicit Types l : list pc.

Lemma cnt_insert f l i p q :
  l !! i = Some p ->
  (cnt f (<[i := q]> l) + Nat.b2n (f p) = cnt f l + Nat.b2n (f q))%nat.
Proof.
  revert i. induction l as [| x l IH]; intros [| i] Hi; simpl in *; try discriminate.
  - injection Hi as ->. lia.
  - specialize (IH i Hi). lia.
Qed.

Lemma cnt_pos f l i p :
  l !! i = Some p -> f p = true -> (1 <= cnt f l)%nat.
Proof.
  revert i. induction l as [| x l IH]; intros [| i] Hi Hf; simpl in *; try discriminate.
  - injection Hi as ->. rewrite Hf. simpl. lia.
  - specialize (IH i Hi Hf). lia.
Qed.

Lemma cnt_replicate f n p :
  cnt f (replicate n p) = (n * Nat.b2n (f p))%nat.
Proof. induction n as [| n IH]; simpl; [reflexivity | rewrite IH; lia]. Qed.

Lemma cnt_sum_le f g h l :
  (forall p, (Nat.b2n (f p) + Nat.b2n (g p) <= Nat.b2n (h p))%nat) ->
  (cnt f l + cnt g l <= cnt h l)%nat.
Proof.
  intros H. induction l as [| x l IH]; simpl; [lia |]. specialize (H x). lia.
Qed.

Lemma cnt_le f g l :
  (forall p, (Nat.b2n (f p) <= Nat.b2n (g p))%nat) ->
  (cnt f l <= cnt g l)%nat.
Proof.
  intros H. induction l as [| x l IH]; simpl; [lia |]. specialize (H x). lia.
Qed.

Lemma cnt_all f g l :
  forallb f l = true ->
  (forall p, f p = true -> g p = true) ->
  cnt g l = length l.
Proof.
  intros Hall Hfg. induction l as [| x l IH]; simpl in *; [reflexivity |].
  apply andb_true_iff in Hall as [Hx Hl]. rewrite (Hfg x Hx), (IH Hl). reflexivity.
Qed.

Lemma inBody_atRecheck_holdsW p :
  (Nat.b2n (inBody p) + Nat.b2n (atRecheck p) <= Nat.b2n (holdsW p))%nat.
Proof. destruct p; simpl; lia. Qed.

Lemma inBody_pastRecheck p : (Nat.b2n (inBody p) <= Nat.b2n (pastRecheck p))%nat.
Proof. destruct p; simpl; lia. Qed.

Lemma returned_pastRecheck p : has_returned p = true -> pastRecheck p = true.
Proof. by destruct p. Qed.

End Counting.

Section Race.

Context {ClientAssertionCredential : Type}.
Variable w0 : WorkloadIdentityFederationCredential ClientAssertionCredential.
Variable now0 : time.Time.
Implicit Types s : system ClientAssertionCredential.

(** The cache has expired when the goroutines start. *)
Hypothesis stale_at_start : expired w0 now0 = true.

Lemma inv_start n : mtx w0 = sync.zero -> inv w0 now0 (start n w0 now0).
Proof.
  intros Hm. constructor; simpl; rewrite ?Hm, ?cnt_replicate; simpl; auto; try lia.
  apply Forall_forall. intros p Hp r Hr.
  apply elem_of_replicate in Hp as [-> _]. discriminate.
Qed.

Lemma inv_tick d s : inv w0 now0 s -> inv w0 now0 (tick d s).
Proof.
  intros [Ht Hc Hk Hr Hw Hx Ha Hu Hy Ho].
  constructor; simpl; auto.
  - lia.
  - intros Hle. apply Ho. lia.
Qed.

(** The bookkeeping of one step: how the counts change when goroutine [i]
    moves from [p] to [q]. *)
Lemma counts_after (l : list pc) i p q :
  l !! i = Some p ->
  (cnt holdsR (<[i := q]> l) + Nat.b2n (holdsR p) = cnt holdsR l + Nat.b2n (holdsR q))%nat /\
  (cnt holdsW (<[i := q]> l) + Nat.b2n (holdsW p) = cnt holdsW l + Nat.b2n (holdsW q))%nat /\
  (cnt inBody (<[i := q]> l) + Nat.b2n (inBody p) = cnt inBody l + Nat.b2n (inBody q))%nat /\
  (cnt pastRecheck (<[i := q]> l) + Nat.b2n (pastRecheck p) =
   cnt pastRecheck l + Nat.b2n (pastRecheck q))%nat /\
  (cnt pastAssign (<[i := q]> l) + Nat.b2n (pastAssign p) =
   cnt pastAssign l + Nat.b2n (pastAssign q))%nat /\
  (Nat.b2n (holdsR p) <= cnt holdsR l)%nat /\
  (Nat.b2n (holdsW p) <= cnt holdsW l)%nat /\
  (Nat.b2n (inBody p) <= cnt inBody l)%nat /\
  (Nat.b2n (atRecheck p) <= cnt atRecheck l)%nat /\
  (Nat.b2n (pastRecheck p) <= cnt pastRecheck l)%nat /\
  (Nat.b2n (pastAssign p) <= cnt pastAssign l)%nat /\
  (cnt inBody l + cnt atRecheck l <= cnt holdsW l)%nat /\
  (cnt inBody l <= cnt pastRecheck l)%nat.
Proof.
  intros Hi.
  assert (Hpos : forall f, (Nat.b2n (f p) <= cnt f l)%nat).
  { intros f. destruct (f p) eqn:Hf; simpl; [| lia]. by apply (cnt_pos f l i p). }
  repeat split; auto using cnt_insert.
  - apply cnt_sum_le, inBody_atRecheck_holdsW.
  - apply cnt_le, inBody_pastRecheck.
Qed.

Ltac step_to Hi q :=
  let H := fresh "Hcnt" in
  pose proof (counts_after _ _ _ q Hi) as H;
  simpl in H; decompose [and] H; clear H.

Ltac close_inv :=
  constructor; simpl in *; auto; try lia;
  try solve [intuition (auto; lia)];
  try solve [apply Forall_insert; [assumption |];
             let r := fresh "r" in let Hyield := fresh "Hyield" in
             intros r Hyield; simpl in Hyield; try discriminate;
             injection Hyield as <-; intuition (auto; try congruence; lia)].

Lemma inv_step i s s' : inv w0 now0 s -> step i s = Next s' -> inv w0 now0 s'.
Proof.
  intros Hinv Hstep. unfold step in Hstep.
  destruct (goroutines s !! i) as [p |] eqn:Hi; [| discriminate].
  destruct Hinv as [Ht Hc Hk Hr Hw Hx Ha Hu Hy Ho].
  pose proof (Forall_lookup_1 _ _ _ _ Hy Hi) as Hyi.
  pose proof stale_at_start as Hstale. apply Before_lt in Hstale.
  destruct s as [w ts k n]; simpl in *.
  destruct w as [a t c x m]; destruct m as [rd wr]; simpl in *. subst t c.
  destruct p.
  - (* line 108 *)
    unfold call_mtx, sync.RLock in Hstep; simpl in Hstep.
    destruct wr; [discriminate |]. injection Hstep as <-.
    step_to Hi AtCheck. close_inv.
  - (* line 109 *)
    unfold expired in Hstep; simpl in Hstep.
    destruct (time.Before x k) eqn:Htest; injection Hstep as <-.
    + apply Before_lt in Htest. step_to Hi AtRUnlock. close_inv.
    + apply Before_ge in Htest. step_to Hi AtReturnFast. close_inv.
  - (* line 111 *)
    unfold call_mtx, sync.RUnlock in Hstep; simpl in Hstep.
    destruct rd; [discriminate |]. injection Hstep as <-.
    step_to Hi AtLock. close_inv.
  - (* line 112 *)
    unfold call_mtx, sync.Lock in Hstep; simpl in Hstep.
    destruct wr; [discriminate |]. destruct rd; [| discriminate].
    injection Hstep as <-.
    step_to Hi AtRecheck. close_inv.
  - (* line 115 *)
    unfold expired in Hstep; simpl in Hstep.
    destruct (time.Before x k) eqn:Htest; injection Hstep as <-.
    + apply Before_lt in Htest. step_to Hi AtAssertion.
      assert (Nat.b2n wr <= 1)%nat by (destruct wr; simpl; lia).
      close_inv.
    + apply Before_ge in Htest. step_to Hi AtReturnSlow. close_inv.
  - (* line 116 *)
    injection Hstep as <-. step_to Hi AtExpires. close_inv.
  - (* line 118 *)
    injection Hstep as <-. step_to Hi AtReturnSlow. close_inv.
  - (* line 123, first branch *)
    injection Hstep as <-. step_to Hi (AtUnlock a). close_inv.
  - (* the deferred Unlock *)
    unfold call_mtx, sync.Unlock in Hstep; simpl in Hstep.
    destruct wr; [| discriminate]. injection Hstep as <-.
    step_to Hi (Returned (a0, @None error)). close_inv.
  - (* line 123, second branch *)
    injection Hstep as <-. step_to Hi (AtRUnlockDeferred a). close_inv.
  - (* the deferred RUnlock *)
    unfold call_mtx, sync.RUnlock in Hstep; simpl in Hstep.
    destruct rd; [discriminate |]. injection Hstep as <-.
    step_to Hi (Returned (a0, @None error)). close_inv.
  - discriminate.
Qed.

Lemma inv_fire e s s' : inv w0 now0 s -> fire e s = Next s' -> inv w0 now0 s'.
Proof.
  destruct e as [i | d]; simpl.
  - apply inv_step.
  - intros Hinv [= <-]. by apply inv_tick.
Qed.

Lemma inv_run sched s s' : inv w0 now0 s -> run sched s = Next s' -> inv w0 now0 s'.
Proof.
  revert s. induction sched as [| e sched IH]; intros s Hinv Hrun; simpl in Hrun.
  - by injection Hrun as <-.
  - destruct (fire e s) as [s1 | |] eqn:Hfire; try discriminate.
    eapply IH; [| exact Hrun]. by eapply inv_fire.
Qed.

(** No unlock is ever made of a mutex that is not locked. *)
Lemma step_safe i s : inv w0 now0 s -> step i s <> Dies.
Proof.
  intros Hinv. unfold step.
  destruct (goroutines s !! i) as [p |] eqn:Hi; [| discriminate].
  pose proof (inv_readers _ _ _ Hinv) as Hr.
  pose proof (inv_writer _ _ _ Hinv) as Hw.
  pose proof (cnt_pos holdsR _ _ _ Hi) as HposR.
  pose proof (cnt_pos holdsW _ _ _ Hi) as HposW.
  destruct p; simpl in *;
    unfold call_mtx, sync.RLock, sync.RUnlock, sync.Lock, sync.Unlock;
    try discriminate;
    try (destruct (expired (shared s) (clock s)); discriminate).
  - by destruct (sync.writer _).
  - specialize (HposR eq_refl). destruct (sync.readers _); [lia | discriminate].
  - destruct (sync.writer _); [discriminate |]. by destruct (sync.readers _).
  - specialize (HposW eq_refl). destruct (sync.writer _); [discriminate |].
    simpl in Hw. lia.
  - specialize (HposR eq_refl). destruct (sync.readers _); [lia | discriminate].
Qed.

Lemma run_safe sched s : inv w0 now0 s -> run sched s <> Dies.
Proof.
  revert s. induction sched as [| e sched IH]; intros s Hinv; simpl; [discriminate |].
  destruct (fire e s) as [s1 | |] eqn:Hfire; [| discriminate |].
  - apply IH. by eapply inv_fire.
  - destruct e as [i | d]; simpl in Hfire; [| discriminate].
    by apply step_safe in Hfire.
Qed.

Lemma step_length i s s' :
  step i s = Next s' -> length (goroutines s') = length (goroutines s).
Proof.
  unfold step. destruct (goroutines s !! i) as [p |]; [| discriminate].
  destruct p; unfold call_mtx;
    repeat match goal with
           | |- context [match ?op (mtx (shared s)) with _ => _ end] =>
               destruct (op (mtx (shared s)))
           | |- context [if expired ?w ?k then _ else _] => destruct (expired w k)
           end;
    intros [= <-] || discriminate; simpl; apply length_insert.
Qed.

Lemma run_length sched s s' :
  run sched s = Next s' -> length (goroutines s') = length (goroutines s).
Proof.
  revert s. induction sched as [| e sched IH]; intros s Hrun; simpl in Hrun.
  - by injection Hrun as <-.
  - destruct (fire e s) as [s1 | |] eqn:Hfire; try discriminate.
    rewrite (IH _ Hrun). destruct e as [i | d]; simpl in Hfire.
    + by apply step_length in Hfire.
    + by injection Hfire as <-.
Qed.

(** A goroutine that holds the read lock and finds the cache fresh returns
    in three steps of its own; none of them has to wait. *)
Lemma fast_path_runs i s :
  inv w0 now0 s ->
  goroutines s !! i = Some AtCheck ->
  expired (shared s) (clock s) = false ->
  exists s',
    run [Step i; Step i; Step i] s = Next s' /\
    goroutines s' !! i = Some (Returned (oauth2.AccessToken (token w0), None)).
Proof.
  intros Hinv Hi Hfresh.
  pose proof (lookup_lt_Some _ _ _ Hi) as Hlen.
  assert (H1 : step i s = Next (goto i AtReturnFast (shared s) s)).
  { unfold step. by rewrite Hi, Hfresh. }
  set (s1 := goto i AtReturnFast (shared s) s) in *.
  assert (Hi1 : goroutines s1 !! i = Some AtReturnFast)
    by (by apply list_lookup_insert_eq).
  assert (H2 : step i s1 =
               Next (goto i (AtRUnlockDeferred (assertion (shared s1))) (shared s1) s1)).
  { unfold step. by rewrite Hi1. }
  set (s2 := goto i (AtRUnlockDeferred (assertion (shared s1))) (shared s1) s1) in *.
  assert (Hi2 : goroutines s2 !! i = Some (AtRUnlockDeferred (assertion (shared s1)))).
  { apply list_lookup_insert_eq. simpl. by rewrite length_insert. }
  pose proof (inv_step _ _ _ Hinv H1) as Hinv1.
  pose proof (inv_step _ _ _ Hinv1 H2) as Hinv2.
  destruct (step i s2) as [s3 | |] eqn:H3.
  - exists s3. split.
    + simpl. by rewrite H1, H2, H3.
    + pose proof (inv_step _ _ _ Hinv2 H3) as Hinv3.
      assert (Hi3 : goroutines s3 !! i = Some (Returned (assertion (shared s1), None))).
      { unfold step in H3. rewrite Hi2 in H3. unfold call_mtx in H3.
        destruct (sync.RUnlock _); try discriminate. injection H3 as <-.
        apply list_lookup_insert_eq. simpl. by rewrite !length_insert. }
      rewrite Hi3. f_equal. f_equal.
      exact (Forall_lookup_1 _ _ _ _ (inv_yields _ _ _ Hinv3) Hi3 _ eq_refl).
  - exfalso. unfold step in H3. rewrite Hi2 in H3. unfold call_mtx, sync.RUnlock in H3.
    pose proof (inv_readers _ _ _ Hinv2) as Hrd.
    pose proof (cnt_pos holdsR _ _ _ Hi2 eq_refl).
    destruct (sync.readers (mtx (shared s2))); [lia | discriminate].
  - by apply step_safe in H3.
Qed.

End Race.

(** ** The callers all return *)

Section Progress.

Context {ClientAssertionCredential : Type}.
Variable w0 : WorkloadIdentityFederationCredential ClientAssertionCredential.
Variable now0 : time.Time.
Implicit Types s : system ClientAssertionCredential.
Hypothesis stale_at_start : expired w0 now0 = true.

Lemma cnt_exists (f : pc -> bool) (l : list pc) :
  (1 <= cnt f l)%nat -> exists i p, l !! i = Some p /\ f p = true.
Proof.
  induction l as [| x l IH]; simpl; [lia |].
  destruct (f x) eqn:Hx.
  - intros _. by exists O, x.
  - simpl. intros H. destruct (IH H) as (i & p & Hi & Hp). by exists (S i), p.
Qed.

Lemma not_all_returned (l : list pc) :
  forallb has_returned l = false ->
  exists i p, l !! i = Some p /\ has_returned p = false.
Proof.
  induction l as [| x l IH]; simpl; [discriminate |].
  destruct (has_returned x) eqn:Hx.
  - simpl. intros H. destruct (IH H) as (i & p & Hi & Hp). by exists (S i), p.
  - intros _. by exists O, x.
Qed.

(** No deadlock: as long as a goroutine has not returned, some goroutine
    can execute its statement. *)
Lemma some_goroutine_runs s :
  inv w0 now0 s -> all_returned s = false -> exists i s', step i s = Next s'.
Proof.
  intros Hinv Hnot.
  pose proof (inv_readers _ _ _ Hinv) as Hr.
  pose proof (inv_writer _ _ _ Hinv) as Hw.
  destruct (sync.writer (mtx (shared s))) eqn:Hwr; simpl in Hw.
  - (* the write lock is held: its holder runs *)
    destruct (cnt_exists holdsW (goroutines s)) as (i & p & Hi & Hp); [lia |].
    exists i. unfold step. rewrite Hi.
    destruct p; try discriminate Hp;
      try match goal with
          | |- context [if expired ?w ?k then _ else _] => destruct (expired w k)
          end; eauto.
    unfold call_mtx, sync.Unlock. rewrite Hwr. eauto.
  - destruct (sync.readers (mtx (shared s))) as [| rd] eqn:Hrd.
    + (* the mutex is free: whoever has not returned is about to lock it *)
      destruct (not_all_returned _ Hnot) as (i & p & Hi & Hp).
      pose proof (cnt_pos holdsR _ _ _ Hi) as HposR.
      pose proof (cnt_pos holdsW _ _ _ Hi) as HposW.
      exists i. unfold step. rewrite Hi.
      destruct p; try discriminate Hp;
        try (specialize (HposR eq_refl); lia);
        try (specialize (HposW eq_refl); lia).
      * unfold call_mtx, sync.RLock. rewrite Hwr. eauto.
      * unfold call_mtx, sync.Lock. rewrite Hwr, Hrd. eauto.
    + (* read locks are held: a holder runs *)
      destruct (cnt_exists holdsR (goroutines s)) as (i & p & Hi & Hp); [lia |].
      exists i. unfold step. rewrite Hi.
      destruct p; try discriminate Hp;
        try match goal with
            | |- context [if expired ?w ?k then _ else _] => destruct (expired w k)
            end; eauto;
        unfold call_mtx, sync.RUnlock; rewrite Hrd; eauto.
Qed.

Lemma total_insert (l : list pc) i p q :
  l !! i = Some p ->
  (total (<[i := q]> l) + remaining p = total l + remaining q)%nat.
Proof.
  revert i. induction l as [| x l IH]; intros [| i] Hi; simpl in *; try discriminate.
  - injection Hi as ->. lia.
  - specialize (IH i Hi). lia.
Qed.

(** Every step brings its goroutine nearer to its return, and leaves the
    clock alone. *)
Lemma step_decreases i s s' :
  step i s = Next s' ->
  (total (goroutines s') < total (goroutines s))%nat /\ clock s' = clock s.
Proof.
  unfold step. destruct (goroutines s !! i) as [p |] eqn:Hi; [| discriminate].
  destruct p; unfold call_mtx;
    repeat match goal with
           | |- context [match ?op (mtx (shared s)) with _ => _ end] =>
               destruct (op (mtx (shared s)))
           | |- context [if expired ?w ?k then _ else _] => destruct (expired w k)
           end;
    intros [= <-] || discriminate; simpl; (split; [| reflexivity]);
    match goal with
    | |- context [<[i := ?q]> _] => pose proof (total_insert _ _ _ q Hi)
    end; simpl in *; lia.
Qed.

Lemma total_zero (l : list pc) : total l = O -> forallb has_returned l = true.
Proof.
  induction l as [| x l IH]; simpl; [reflexivity |].
  intros H. rewrite IH by lia. by destruct x.
Qed.

(** From every state of an execution the goroutines can run on, without
    the clock moving, until all have returned. *)
Lemma can_finish s :
  inv w0 now0 s ->
  exists sched s',
    run sched s = Next s' /\ all_returned s' = true /\ clock s' = clock s.
Proof.
  remember (total (goroutines s)) as m eqn:Hm.
  revert s Hm. induction m as [m IH] using lt_wf_ind. intros s -> Hinv.
  destruct (all_returned s) eqn:Hall.
  - exists [], s. by repeat split.
  - destruct (some_goroutine_runs s Hinv Hall) as (i & s1 & Hstep).
    destruct (step_decreases i s s1 Hstep) as [Hlt Hclock].
    destruct (IH _ Hlt s1 eq_refl (inv_step w0 now0 stale_at_start i s s1 Hinv Hstep))
      as (sched & s' & Hrun & Hall' & Hclock').
    exists (Step i :: sched), s'. repeat split; [| exact Hall' | congruence].
    simpl. by rewrite Hstep.
Qed.

End Progress.

(** C8 (as the code has it).  Let [n] goroutines call [getAssertion] on a
    credential whose cache has expired.  Whatever the interleaving:
    at most one goroutine at a time is in the write-locked section; every
    goroutine that has returned has returned the access token of the
    federated token with a nil error, so all callers receive the same
    string; once all have returned the inner body has run at least once;
    and a goroutine that holds the read lock and finds the cache fresh
    returns in three steps of its own without waiting for any lock.
    The inner body runs exactly once provided the clock has not passed the
    expiry of the token less ten minutes, that is, provided the refreshed
    cache is still fresh when the other callers test it again.  No state
    of an execution is a deadlock: from each the callers can run on until
    all have returned. *)
Theorem C8_one_refresh_while_token_is_fresh {ClientAssertionCredential : Type}
    (w : WorkloadIdentityFederationCredential ClientAssertionCredential)
    (now : time.Time) (n : nat) (sched : list event)
    (s : system ClientAssertionCredential) :
  mtx w = sync.zero ->
  expired w now = true ->
  run sched (start n w now) = Next s ->
  (cnt holdsW (goroutines s) <= 1)%nat /\
  (forall i r, goroutines s !! i = Some (Returned r) ->
               r = (oauth2.AccessToken (token w), None)) /\
  (all_returned s = true -> (0 < n)%nat -> (1 <= refreshed s)%nat) /\
  (clock s <= oauth2.Expiry (token w) - 10 * time.Minute ->
   (refreshed s <= 1)%nat /\
   (all_returned s = true -> (0 < n)%nat -> refreshed s = 1%nat)) /\
  (forall i, goroutines s !! i = Some AtCheck ->
             expired (shared s) (clock s) = false ->
             exists s',
               run [Step i; Step i; Step i] s = Next s' /\
               goroutines s' !! i =
               Some (Returned (oauth2.AccessToken (token w), None))) /\
  (exists sched' s',
     run sched' s = Next s' /\ all_returned s' = true /\ clock s' = clock s).
Proof.
  intros Hm Hstale Hrun.
  pose proof (inv_run w now Hstale sched _ s (inv_start w now n Hm) Hrun) as Hinv.
  pose proof (run_length sched _ s Hrun) as Hlen.
  simpl in Hlen. rewrite length_replicate in Hlen.
  assert (Hsome : all_returned s = true -> (0 < n)%nat -> (1 <= refreshed s)%nat).
  { intros Hall Hn.
    pose proof (cnt_all has_returned pastRecheck _ Hall returned_pastRecheck) as Hcnt.
    destruct (refreshed s) eqn:Hz; [| lia].
    destruct (inv_unrefreshed _ _ _ Hinv Hz) as [_ Hnone]. lia. }
  split; [| split; [| split; [exact Hsome | split; [| split]]]].
  - rewrite <- (inv_writer _ _ _ Hinv). destruct (sync.writer _); simpl; lia.
  - intros i r Hi.
    exact (Forall_lookup_1 _ _ _ _ (inv_yields _ _ _ Hinv) Hi r eq_refl).
  - intros Hfresh.
    destruct (inv_once _ _ _ Hinv) as [Hle _]; [exact Hfresh |].
    split; [exact Hle |]. intros Hall Hn. specialize (Hsome Hall Hn). lia.
  - intros i Hi Hfresh. by apply (fast_path_runs w now Hstale).
  - by apply (can_finish w now Hstale).
Qed.

(** C8 as it is stated fails: on the credential that the environment alone
    gives, whose token has no expiry, two callers that both find the cache
    expired both run the inner body. *)
Lemma C8_counterexample :
  let s := {| shared := after_refresh Examples.w_env;
              goroutines := [Returned ("tok1", None); Returned ("tok1", None)];
              clock := Examples.t0;
              refreshed := 2 |} in
  mtx Examples.w_env = sync.zero /\
  expired Examples.w_env Examples.t0 = true /\
  run two_callers (start 2 Examples.w_env Examples.t0) = Next s /\
  all_returned s = true /\
  refreshed s <> 1%nat.
Proof.
  intros s. split; [reflexivity |]. split; [reflexivity |].
  split; [vm_compute; reflexivity |]. split; [reflexivity | discriminate].
Qed.

Lemma C8_one_refresh_while_token_is_fresh_witness :
  let s := {| shared := after_refresh Examples.w_hour;
              goroutines := [Returned ("tok1", None); Returned ("tok1", None)];
              clock := Examples.t0;
              refreshed := 1 |} in
  mtx Examples.w_hour = sync.zero /\
  expired Examples.w_hour Examples.t0 = true /\
  run two_callers_one_refresh (start 2 Examples.w_hour Examples.t0) = Next s /\
  clock s <= oauth2.Expiry (token Examples.w_hour) - 10 * time.Minute /\
  (cnt holdsW (goroutines s) <= 1)%nat /\
  (refreshed s <= 1)%nat.
Proof.
  intros s.
  assert (Hrun : run two_callers_one_refresh (start 2 Examples.w_hour Examples.t0) = Next s)
    by (vm_compute; reflexivity).
  assert (Hfresh : clock s <= oauth2.Expiry (token Examples.w_hour) - 10 * time.Minute)
    by (vm_compute; discriminate).
  destruct (C8_one_refresh_while_token_is_fresh Examples.w_hour Examples.t0 2
              two_callers_one_refresh s eq_refl eq_refl Hrun)
    as (Hexcl & _ & _ & Honce & _).
  split; [reflexivity |]. split; [reflexivity |]. split; [exact Hrun |].
  split; [exact Hfresh |]. split; [exact Hexcl |].
  exact (proj1 (Honce Hfresh)).
Defined.

(** The executions never run into the fatal error of an unlock without a
    lock. *)
Lemma start_never_dies {ClientAssertionCredential : Type}
    (w : WorkloadIdentityFederationCredential ClientAssertionCredential)
    (now : time.Time) (n : nat) (sched : list event) :
  mtx w = sync.zero ->
  expired w now = true ->
  run sched (start n w now) <> Dies.
Proof.
  intros Hm Hstale. apply (run_safe w now Hstale). by apply inv_start.
Qed.

(** ** The two models agree

    A goroutine that runs alone does what the sequential [getAssertion]
    does, with the clock read at the two tests. *)
Lemma solo_agrees {ClientAssertionCredential : Type}
    (w : WorkloadIdentityFederationCredential ClientAssertionCredential)
    (now : time.Time) (d : N) :
  mtx w = sync.zero ->
  exists k s r w',
    run ([Step 0; Step 0; Tick d] ++ replicate k (Step 0)) (start 1 w now) = Next s /\
    getAssertion now (now + Z.of_N d) w = Returns r w' /\
    shared s = w' /\
    goroutines s = [Returned r] /\
    refreshed s =
      match branch_taken now (now + Z.of_N d) w with
      | Refreshed => 1%nat
      | FastPath | Rechecked => 0%nat
      end.
Proof.
  intros Hm. rewrite (getAssertion_by_branch w now (now + Z.of_N d) Hm).
  unfold branch_taken. destruct w as [a t c x m]. simpl in Hm. subst m.
  unfold expired; simpl.
  destruct (time.Before x now) eqn:H1; [destruct (time.Before x (now + Z.of_N d)) eqn:H2 |].
  - exists 7%nat. eexists _, _, _.
    split; [| split; [reflexivity |]].
    + simpl. unfold step, expired; simpl. rewrite H1. simpl.
      unfold step, expired; simpl. rewrite H2. reflexivity.
    + repeat split.
  - exists 5%nat. eexists _, _, _.
    split; [| split; [reflexivity |]].
    + simpl. unfold step, expired; simpl. rewrite H1. simpl.
      unfold step, expired; simpl. rewrite H2. reflexivity.
    + repeat split.
  - exists 2%nat. eexists _, _, _.
    split; [| split; [reflexivity |]].
    + simpl. unfold step, expired; simpl. rewrite H1. reflexivity.
    + repeat split.
Qed.

(** * Further properties of the code *)

(** ** The constructor *)

Section ConstructorMore.

Context {ClientOptions ClientAssertionCredential : Type}.
Context `{!Inhabited ClientOptions}.
Variable newCAC :
  string -> string -> ClientAssertionCredentialOptions ClientOptions ->
  ClientAssertionCredential + string.
Implicit Types opts : option (WorkloadIdentityFederationCredentialOptions ClientOptions).
Implicit Types env : gmap string string.

Lemma supplied_not_missing (explicit : string) (fromEnv : option string) v :
  supplied explicit fromEnv v -> ~ (explicit = "" /\ fromEnv = None).
Proof. intros [[Hne _] | [_ Hv]] [He Hn]; congruence. Qed.

Lemma token_supplied_not_missing (explicit : oauth2.Token) (fromEnv : option string) t :
  token_supplied explicit fromEnv t ->
  ~ (oauth2.AccessToken explicit = "" /\ (fromEnv = None \/ fromEnv = Some "")).
Proof.
  intros [[Hne _] | [_ (v & Hv & Hvne & _)]] [He Hn]; [congruence |].
  destruct Hn as [Hn | Hn]; congruence.
Qed.

Lemma supplied_functional (explicit : string) (fromEnv : option string) v v' :
  supplied explicit fromEnv v -> supplied explicit fromEnv v' -> v = v'.
Proof. intros [[? ->] | [? ?]] [[? ->] | [? ?]]; congruence. Qed.


(** X2.  Each of the three configuration errors is returned exactly in its
    own case: [errorClientIDNotSpecified] when the client ID option is
    empty and AZURE_CLIENT_ID is unset; [errorTokenNotSpecified] when the
    client ID is supplied, the token option is empty and
    AZURE_FEDERATED_TOKEN is unset or empty; [errorTenantIDNotSpecified]
    when the client ID and the token are supplied, the tenant ID option is
    empty and AZURE_TENANT_ID is unset. *)
Theorem configuration_errors_exact opts env :
  let o := options_or_zero opts in
  (NewWorkloadIdentityFederationCredential newCAC opts env =
     Failure errorClientIDNotSpecified <->
   ClientID o = "" /\ env !! azureClientID = None) /\
  (NewWorkloadIdentityFederationCredential newCAC opts env =
     Failure errorTokenNotSpecified <->
   (exists c, supplied (ClientID o) (env !! azureClientID) c) /\
   oauth2.AccessToken (FederatedToken o) = "" /\
   (env !! azureFederatedTokentoken = None \/
    env !! azureFederatedTokentoken = Some "")) /\
  (NewWorkloadIdentityFederationCredential newCAC opts env =
     Failure errorTenantIDNotSpecified <->
   (exists c, supplied (ClientID o) (env !! azureClientID) c) /\
   (exists t, token_supplied (FederatedToken o) (env !! azureFederatedTokentoken) t) /\
   TenantID o = "" /\ env !! azureTenantID = None).
Proof.
  intros o.
  destruct (supplied_or_missing (ClientID o) (env !! azureClientID))
    as [[c Hc] | [Hc Hce]].
  2:{ rewrite (constructor_no_clientID newCAC opts env Hc Hce).
      repeat split; try discriminate; auto.
      - intros [[c' Hc'] _]. by destruct (supplied_not_missing _ _ _ Hc').
      - intros [[c' Hc'] _]. by destruct (supplied_not_missing _ _ _ Hc'). }
  pose proof (supplied_not_missing _ _ _ Hc) as Hcn.
  destruct (token_supplied_or_missing (FederatedToken o)
              (env !! azureFederatedTokentoken)) as [[t Ht] | [Ht Hte]].
  2:{ rewrite (constructor_no_token newCAC opts env c Hc Ht Hte).
      repeat split; try discriminate; eauto; try tauto.
      intros (_ & [t' Ht'] & _).
      by destruct (token_supplied_not_missing _ _ _ Ht'). }
  pose proof (token_supplied_not_missing _ _ _ Ht) as Htn'.
  destruct (supplied_or_missing (TenantID o) (env !! azureTenantID))
    as [[tn Htn] | [Htn Htne]].
  2:{ rewrite (constructor_no_tenantID newCAC opts env c t Hc Ht Htn Htne).
      repeat split; try discriminate; eauto; tauto. }
  pose proof (supplied_not_missing _ _ _ Htn) as Htnn.
  rewrite (constructor_resolved newCAC opts env c t tn Hc Ht Htn). fold o.
  destruct (newCAC tn c (caco_of o)); repeat split; try discriminate; tauto.
Qed.

(** X3.  The constructor succeeds exactly when the three fields are
    supplied and the collaborator accepts them, and it fails with an error
    of the collaborator exactly when the three fields are supplied and the
    collaborator refuses them; the message is the collaborator's. *)
Theorem constructor_outcome_exact opts env :
  let o := options_or_zero opts in
  (forall w,
     NewWorkloadIdentityFederationCredential newCAC opts env = Success w <->
     exists c t tn cr,
       supplied (ClientID o) (env !! azureClientID) c /\
       token_supplied (FederatedToken o) (env !! azureFederatedTokentoken) t /\
       supplied (TenantID o) (env !! azureTenantID) tn /\
       newCAC tn c (caco_of o) = inl cr /\
       w = constructed t cr) /\
  (forall msg,
     NewWorkloadIdentityFederationCredential newCAC opts env =
       Failure (collaboratorError msg) <->
     exists c t tn,
       supplied (ClientID o) (env !! azureClientID) c /\
       token_supplied (FederatedToken o) (env !! azureFederatedTokentoken) t /\
       supplied (TenantID o) (env !! azureTenantID) tn /\
       newCAC tn c (caco_of o) = inr msg).
Proof.
  intros o. split.
  - intros w. split.
    + apply constructor_success.
    + intros (c & t & tn & cr & Hc & Ht & Htn & Hcr & ->).
      rewrite (constructor_resolved newCAC opts env c t tn Hc Ht Htn).
      fold o. by rewrite Hcr.
  - intros msg. split.
    + intros Hfail.
      destruct (supplied_or_missing (ClientID o) (env !! azureClientID))
        as [[c Hc] | [Hc Hce]].
      2:{ rewrite (constructor_no_clientID newCAC opts env Hc Hce) in Hfail.
          discriminate. }
      destruct (token_supplied_or_missing (FederatedToken o)
                  (env !! azureFederatedTokentoken)) as [[t Ht] | [Ht Hte]].
      2:{ rewrite (constructor_no_token newCAC opts env c Hc Ht Hte) in Hfail.
          discriminate. }
      destruct (supplied_or_missing (TenantID o) (env !! azureTenantID))
        as [[tn Htn] | [Htn Htne]].
      2:{ rewrite (constructor_no_tenantID newCAC opts env c t Hc Ht Htn Htne) in Hfail.
          discriminate. }
      rewrite (constructor_resolved newCAC opts env c t tn Hc Ht Htn) in Hfail.
      fold o in Hfail.
      destruct (newCAC tn c (caco_of o)) as [cr | m] eqn:Hcr; [discriminate |].
      injection Hfail as ->. by exists c, t, tn.
    + intros (c & t & tn & Hc & Ht & Htn & Hcr).
      rewrite (constructor_resolved newCAC opts env c t tn Hc Ht Htn).
      fold o. by rewrite Hcr.
Qed.

(** X4.  A credential that the constructor returns has a non-empty access
    token; the other fields of its token are those of the options (the
    zero values with nil options) whether or not the access token came
    from the environment; its collaborator is set and its cache is empty. *)
Theorem constructed_credential_shape opts env w :
  NewWorkloadIdentityFederationCredential newCAC opts env = Success w ->
  let o := options_or_zero opts in
  oauth2.AccessToken (token w) <> "" /\
  oauth2.Expiry (token w) = oauth2.Expiry (FederatedToken o) /\
  oauth2.TokenType (token w) = oauth2.TokenType (FederatedToken o) /\
  oauth2.RefreshToken (token w) = oauth2.RefreshToken (FederatedToken o) /\
  is_Some (cred w) /\
  assertion w = "" /\ expires w = time.zero /\ mtx w = sync.zero.
Proof.
  intros Hnew o.
  destruct (constructor_success newCAC opts env w Hnew)
    as (c & t & tn & cr & _ & Ht & _ & _ & ->).
  fold o in Ht. simpl.
  destruct Ht as [[Hne ->] | [_ (v & _ & Hv & ->)]]; simpl; repeat split; eauto.
Qed.

End ConstructorMore.

(** ** The cache over the life of a credential *)

Section CacheMore.

Context {ClientAssertionCredential : Type}.
Implicit Types w : WorkloadIdentityFederationCredential ClientAssertionCredential.
Implicit Types clock : list (time.Time * time.Time).

Lemma getAssertion_on_refreshed w now1 now2 :
  mtx w = sync.zero ->
  getAssertion now1 now2 (after_refresh w) =
  Returns (oauth2.AccessToken (token w), None) (after_refresh w).
Proof.
  intros Hm.
  rewrite (getAssertion_by_branch (after_refresh w) now1 now2 Hm).
  by destruct (branch_taken now1 now2 (after_refresh w)).
Qed.

(** X5.  Once the inner body has run, nothing changes any more: on a
    refreshed credential every call, whatever the clock and whichever
    branch it takes, returns the access token of the token and leaves the
    credential exactly as it is. *)
Theorem refreshed_credential_is_stable w clock :
  mtx w = sync.zero ->
  getAssertions clock (after_refresh w) =
  Returns (map (fun _ => (oauth2.AccessToken (token w), None)) clock)
    (after_refresh w).
Proof.
  intros Hm. induction clock as [| [now1 now2] clock IH]; [reflexivity |].
  rewrite (getAssertions_cons _ _ _ _ _ _ (getAssertion_on_refreshed w now1 now2 Hm)).
  by rewrite IH.
Qed.

(** X6.  Over any sequence of calls a credential is in one of two states:
    the one it started in, as long as no call has taken the refresh
    branch, and the refreshed one from the first such call on.  Every
    call returns the assertion cached at the start or the access token of
    the token, with a nil error. *)
Theorem cache_has_two_states w clock :
  mtx w = sync.zero ->
  exists rs w',
    getAssertions clock w = Returns rs w' /\
    (Refreshed ∈ branches clock w -> w' = after_refresh w) /\
    (Refreshed ∉ branches clock w ->
     w' = w /\ rs = map (fun _ => (assertion w, None)) clock) /\
    Forall (fun r => r = (assertion w, None) \/
                     r = (oauth2.AccessToken (token w), None)) rs.
Proof.
  intros Hm. induction clock as [| [now1 now2] clock IH].
  - exists [], w. split; [reflexivity |]. split; [| split; [done | done]].
    intros H. by apply not_elem_of_nil in H.
  - pose proof (getAssertion_by_branch w now1 now2 Hm) as Hcall.
    assert (Hkeep : branch_taken now1 now2 w <> Refreshed ->
                    getAssertion now1 now2 w = Returns (assertion w, None) w).
    { intros Hne. rewrite Hcall. by destruct (branch_taken now1 now2 w). }
    simpl branches.
    assert (Hdec : branch_taken now1 now2 w = Refreshed \/
                   branch_taken now1 now2 w <> Refreshed)
      by (destruct (branch_taken now1 now2 w); auto).
    destruct Hdec as [Hb | Hb].
    + rewrite Hb in *. rewrite Hcall.
      eexists _, (after_refresh w).
      rewrite (getAssertions_cons _ _ _ _ _ _ Hcall).
      rewrite (refreshed_credential_is_stable w clock Hm).
      split; [reflexivity |]. split; [done |]. split.
      * intros Hnot. exfalso. apply Hnot. by left.
      * constructor; [by right |].
        apply Forall_forall. intros r Hr.
        apply list_elem_of_fmap in Hr as (? & -> & _). by right.
    + specialize (Hkeep Hb). rewrite Hkeep.
      destruct IH as (rs & w' & Hr & Hyes & Hno & Hall).
      exists ((assertion w, None) :: rs), w'.
      rewrite (getAssertions_cons _ _ _ _ _ _ Hkeep), Hr.
      split; [reflexivity |]. split; [| split].
      * intros Hin. apply elem_of_cons in Hin as [Heq | Hin]; [congruence | auto].
      * intros Hnot.
        destruct Hno as [-> ->]; [intros Hin; apply Hnot; by right |].
        by split.
      * constructor; auto.
Qed.

(** X8.  Whatever the state of the mutex, a call never ends in the fatal
    error of an unlock without a lock, and a call that returns leaves the
    mutex, the token and the collaborator exactly as it found them. *)
Theorem getAssertion_balances_the_mutex w now1 now2 :
  getAssertion now1 now2 w <> Fatal /\
  forall r w',
    getAssertion now1 now2 w = Returns r w' ->
    mtx w' = mtx w /\ token w' = token w /\ cred w' = cred w /\ r.2 = None.
Proof.
  destruct w as [a t c x [rd wr]].
  unfold getAssertion, bind, read, on_mtx, ret, refresh, assign, expired,
    sync.RLock, sync.RUnlock, sync.Lock, sync.Unlock; simpl.
  destruct wr; simpl; [split; [discriminate | intros ? ? [=]] |].
  destruct (time.Before x now1); simpl.
  - destruct rd; simpl; [| split; [discriminate | intros ? ? [=]]].
    destruct (time.Before x now2); simpl;
      (split; [discriminate | intros r w' [= <- <-]; by repeat split]).
  - split; [discriminate | intros r w' [= <- <-]; by repeat split].
Qed.


End CacheMore.

Section ConstructedCalls.

Context {ClientOptions ClientAssertionCredential : Type}.
Context `{!Inhabited ClientOptions}.
Variable newCAC :
  string -> string -> ClientAssertionCredentialOptions ClientOptions ->
  ClientAssertionCredential + string.

(** X7.  On a credential that the constructor has returned, whatever its
    token and its expiry, every call made by a clock that is past the zero
    instant returns the access token of the token, which is not empty,
    with a nil error; the first call refreshes the cache. *)
Theorem constructed_credential_returns_its_token opts env w clock :
  NewWorkloadIdentityFederationCredential newCAC opts env = Success w ->
  readings_after time.zero clock ->
  exists w',
    getAssertions clock w =
      Returns (map (fun _ => (oauth2.AccessToken (token w), None)) clock) w' /\
    oauth2.AccessToken (token w) <> "" /\
    (clock <> [] -> w' = after_refresh w).
Proof.
  intros Hnew Hclock.
  destruct (constructed_credential_shape newCAC opts env w Hnew)
    as (Hne & _ & _ & _ & _ & _ & Hx & Hm).
  destruct clock as [| [now1 now2] clock].
  - exists w. by repeat split.
  - exists (after_refresh w).
    inversion Hclock as [| ? ? [H1 H2] _]; subst. simpl in H1, H2.
    assert (Hs1 : expired w now1 = true)
      by (unfold expired; rewrite Hx; by apply Before_lt).
    assert (Hs2 : expired w now2 = true)
      by (unfold expired; rewrite Hx; by apply Before_lt).
    rewrite (getAssertions_cons _ _ _ _ _ _
               (getAssertion_refreshed w now1 now2 Hm Hs1 Hs2)).
    rewrite (refreshed_credential_is_stable w clock Hm).
    by repeat split.
Qed.

End ConstructedCalls.

(** ** Concurrent callers, further *)

Section RaceMore.

Context {ClientAssertionCredential : Type}.
Variable w0 : WorkloadIdentityFederationCredential ClientAssertionCredential.
Variable now0 : time.Time.
Implicit Types s : system ClientAssertionCredential.
Hypothesis stale_at_start : expired w0 now0 = true.

Lemma cnt_length (f : pc -> bool) (l : list pc) : (cnt f l <= length l)%nat.
Proof.
  induction l as [| x l IH]; simpl; [lia |]. destruct (f x); simpl; lia.
Qed.

Lemma atExpires_holdsW p : (Nat.b2n (atExpires p) <= Nat.b2n (holdsW p))%nat.
Proof. destruct p; simpl; lia. Qed.

Lemma atExpires_pastAssign p : (Nat.b2n (atExpires p) <= Nat.b2n (pastAssign p))%nat.
Proof. destruct p; simpl; lia. Qed.

Lemma exclusive_start n : exclusive w0 (start n w0 now0).
Proof.
  constructor; simpl.
  - intros _. rewrite cnt_replicate. simpl. lia.
  - by left.
Qed.

Lemma exclusive_tick d s : exclusive w0 s -> exclusive w0 (tick d s).
Proof. intros [Hr Hp]. by constructor. Qed.

Ltac moves Hi q :=
  let H := fresh "Hmv" in
  pose proof (conj (cnt_insert holdsR _ _ _ q Hi)
             (conj (cnt_insert holdsW _ _ _ q Hi)
             (conj (cnt_insert atExpires _ _ _ q Hi)
             (conj (cnt_insert pastAssign _ _ _ q Hi)
             (conj (cnt_insert pastRecheck _ _ _ q Hi)
                   (cnt_insert onFastPath _ _ _ q Hi)))))) as H;
  simpl in H; decompose [and] H; clear H.

Lemma exclusive_step i s s' :
  inv w0 now0 s -> exclusive w0 s -> step i s = Next s' -> exclusive w0 s'.
Proof.
  intros Hinv [Hex Hpair] Hstep. unfold step in Hstep.
  destruct (goroutines s !! i) as [p |] eqn:Hi; [| discriminate].
  pose proof (inv_readers _ _ _ Hinv) as Hr.
  pose proof (inv_writer _ _ _ Hinv) as Hw.
  pose proof (inv_token _ _ _ Hinv) as Ht.
  pose proof (inv_assertion _ _ _ Hinv) as Ha.
  pose proof (cnt_pos holdsR _ _ _ Hi) as HposR.
  pose proof (cnt_pos holdsW _ _ _ Hi) as HposW.
  pose proof (cnt_pos atExpires _ _ _ Hi) as HposE.
  pose proof (cnt_pos pastAssign _ _ _ Hi) as HposA.
  pose proof (cnt_le atExpires holdsW (goroutines s) atExpires_holdsW) as HEW.
  clear Hinv.
  destruct s as [w ts k n]; simpl in *.
  destruct w as [a t c x m]; destruct m as [rd wr]; simpl in *. subst t.
  assert (Hwr : (Nat.b2n wr <= 1)%nat) by (destruct wr; simpl; lia).
  destruct p; simpl in *;
    unfold call_mtx, sync.RLock, sync.RUnlock, sync.Lock, sync.Unlock in Hstep;
    simpl in Hstep;
    try match type of Hstep with
        | context [expired ?w ?k] => destruct (expired w k)
        end;
    try (destruct wr; try discriminate Hstep);
    try (destruct rd; try discriminate Hstep);
    try discriminate Hstep;
    unfold goto, count_refresh in Hstep; simpl in Hstep;
    injection Hstep as <-;
    match goal with
    | |- context [<[i := ?q]> _] => moves Hi q
    end;
    try specialize (HposR eq_refl); try specialize (HposW eq_refl);
    try specialize (HposE eq_refl); try specialize (HposA eq_refl);
    (constructor; simpl in *;
     [ try discriminate; try (intros _); try lia;
       try (specialize (Hex eq_refl); lia)
     | try solve [intuition (auto; try congruence; lia)] ]).
Qed.

Lemma exclusive_run sched s s' :
  inv w0 now0 s -> exclusive w0 s -> run sched s = Next s' -> exclusive w0 s'.
Proof.
  revert s. induction sched as [| e sched IH]; intros s Hinv Hex Hrun; simpl in Hrun.
  - by injection Hrun as <-.
  - destruct (fire e s) as [s1 | |] eqn:Hfire; try discriminate.
    apply (IH s1); [by eapply inv_fire | | exact Hrun].
    destruct e as [i | d]; simpl in Hfire.
    + by eapply exclusive_step.
    + injection Hfire as <-. by apply exclusive_tick.
Qed.

End RaceMore.

Section Herd.

Context {ClientAssertionCredential : Type}.
Variable w0 : WorkloadIdentityFederationCredential ClientAssertionCredential.
Variable now0 : time.Time.
Implicit Types s : system ClientAssertionCredential.
Hypothesis stale_at_start : expired w0 now0 = true.

(** The expiry of the token less ten minutes has passed as well. *)
Hypothesis token_stale :
  time.Before (time.Add (oauth2.Expiry (token w0)) (-10 * time.Minute)) now0 = true.

Lemma herd_start n : herd (start n w0 now0).
Proof. constructor; simpl; rewrite cnt_replicate; simpl; lia. Qed.

Lemma herd_step i s s' :
  inv w0 now0 s -> herd s -> step i s = Next s' -> herd s'.
Proof.
  intros Hinv [Hn Hf] Hstep. unfold step in Hstep.
  destruct (goroutines s !! i) as [p |] eqn:Hi; [| discriminate].
  pose proof (inv_expires _ _ _ Hinv) as Hx.
  pose proof (inv_clock _ _ _ Hinv) as Hk.
  pose proof stale_at_start as Hs0. apply Before_lt in Hs0.
  pose proof token_stale as Hs1. apply Before_lt in Hs1.
  pose proof (cnt_pos onFastPath _ _ _ Hi) as HposF.
  clear Hinv.
  destruct s as [w ts k n]; simpl in *.
  destruct w as [a t c x m]; simpl in *.
  assert (Hstale : time.Before x k = true)
    by (apply Before_lt; destruct Hx as [-> | ->]; lia).
  destruct p; simpl in *;
    unfold call_mtx, expired in Hstep; simpl in Hstep;
    rewrite ?Hstale in Hstep;
    try match type of Hstep with
        | context [match ?op m with _ => _ end] => destruct (op m)
        end;
    try discriminate Hstep;
    unfold goto, count_refresh in Hstep; simpl in Hstep;
    injection Hstep as <-;
    match goal with
    | |- context [<[i := ?q]> _] =>
        pose proof (cnt_insert pastRecheck _ _ _ q Hi);
        pose proof (cnt_insert onFastPath _ _ _ q Hi)
    end;
    try specialize (HposF eq_refl);
    constructor; simpl in *; lia.
Qed.

Lemma herd_run sched s s' :
  inv w0 now0 s -> herd s -> run sched s = Next s' -> herd s'.
Proof.
  revert s. induction sched as [| e sched IH]; intros s Hinv Hh Hrun; simpl in Hrun.
  - by injection Hrun as <-.
  - destruct (fire e s) as [s1 | |] eqn:Hfire; try discriminate.
    apply (IH s1); [by eapply inv_fire | | exact Hrun].
    destruct e as [i | d]; simpl in Hfire.
    + by eapply herd_step.
    + injection Hfire as <-. destruct Hh. by constructor.
Qed.

End Herd.

Section Counters.

Context {ClientAssertionCredential : Type}.
Implicit Types s : system ClientAssertionCredential.

Lemma run_uses_up sched s s' :
  run sched s = Next s' ->
  (steps_of sched + total (goroutines s') <= total (goroutines s))%nat.
Proof.
  revert s. induction sched as [| e sched IH]; intros s Hrun; simpl in Hrun.
  - injection Hrun as <-. simpl. lia.
  - destruct (fire e s) as [s1 | |] eqn:Hfire; try discriminate.
    specialize (IH s1 Hrun). destruct e as [i | d]; simpl in *.
    + destruct (step_decreases i s s1 Hfire) as [Hlt _]. lia.
    + injection Hfire as <-. simpl in IH. lia.
Qed.

Lemma total_replicate n p : total (replicate n p) = (n * remaining p)%nat.
Proof. induction n as [| n IH]; simpl; [reflexivity | rewrite IH; lia]. Qed.

Lemma step_refreshed_le i s s' :
  step i s = Next s' ->
  (refreshed s <= cnt pastRecheck (goroutines s))%nat ->
  (refreshed s' <= cnt pastRecheck (goroutines s'))%nat.
Proof.
  unfold step. destruct (goroutines s !! i) as [p |] eqn:Hi; [| discriminate].
  destruct p; unfold call_mtx;
    repeat match goal with
           | |- context [match ?op (mtx (shared s)) with _ => _ end] =>
               destruct (op (mtx (shared s)))
           | |- context [if expired ?w ?k then _ else _] => destruct (expired w k)
           end;
    intros [= <-] || discriminate; simpl;
    match goal with
    | |- context [<[i := ?q]> _] => pose proof (cnt_insert pastRecheck _ _ _ q Hi)
    end; simpl in *; lia.
Qed.

Lemma run_refreshed_le sched s s' :
  run sched s = Next s' ->
  (refreshed s <= cnt pastRecheck (goroutines s))%nat ->
  (refreshed s' <= cnt pastRecheck (goroutines s'))%nat.
Proof.
  revert s. induction sched as [| e sched IH]; intros s Hrun Hle; simpl in Hrun.
  - by injection Hrun as <-.
  - destruct (fire e s) as [s1 | |] eqn:Hfire; try discriminate.
    apply (IH s1 Hrun). destruct e as [i | d]; simpl in Hfire.
    + by eapply step_refreshed_le.
    + by injection Hfire as <-.
Qed.

End Counters.

Section RaceTheorems.

Context {ClientAssertionCredential : Type}.
Implicit Types w : WorkloadIdentityFederationCredential ClientAssertionCredential.
Implicit Types s : system ClientAssertionCredential.

(** X10.  In every state of a concurrent execution that starts with the
    cache expired, the write lock excludes the read locks, and a goroutine
    that holds a read lock never sees a half-written cache: no goroutine
    is in the write-locked section, and the cached assertion and expiry
    are both the initial ones or both the refreshed ones. *)
Theorem readers_see_no_torn_cache w now n sched s :
  mtx w = sync.zero ->
  expired w now = true ->
  run sched (start n w now) = Next s ->
  (sync.writer (mtx (shared s)) = true -> cnt holdsR (goroutines s) = O) /\
  (forall i p,
     goroutines s !! i = Some p -> holdsR p = true ->
     cnt holdsW (goroutines s) = O /\
     ((assertion (shared s) = assertion w /\ expires (shared s) = expires w) \/
      (assertion (shared s) = oauth2.AccessToken (token w) /\
       expires (shared s) =
       time.Add (oauth2.Expiry (token w)) (-10 * time.Minute)))).
Proof.
  intros Hm Hstale Hrun.
  pose proof (inv_start w now n Hm) as Hinv0.
  pose proof (inv_run w now Hstale sched _ s Hinv0 Hrun) as Hinv.
  pose proof (exclusive_run w now Hstale sched _ s Hinv0
                (exclusive_start w now n) Hrun) as [Hex Hpair].
  split; [exact Hex |]. intros i p Hi Hp.
  pose proof (cnt_pos holdsR _ _ _ Hi Hp) as Hpos.
  pose proof (inv_writer _ _ _ Hinv) as Hw.
  pose proof (cnt_le atExpires holdsW (goroutines s) atExpires_holdsW) as HEW.
  destruct (sync.writer (mtx (shared s))); [specialize (Hex eq_refl); lia |].
  simpl in Hw. split; [lia |].
  destruct Hpair as [H | [H | [_ H]]]; [by left | by right | lia].
Qed.

(** X11.  A step of a goroutine never changes the token or the
    collaborator, and it changes the cached assertion or the cached expiry
    only if the goroutine is inside the inner body with the write lock
    held and no read lock held by anyone. *)
Theorem writes_only_under_the_write_lock w now n sched s i s' :
  mtx w = sync.zero ->
  expired w now = true ->
  run sched (start n w now) = Next s ->
  step i s = Next s' ->
  token (shared s') = token (shared s) /\
  cred (shared s') = cred (shared s) /\
  (assertion (shared s') <> assertion (shared s) \/
   expires (shared s') <> expires (shared s) ->
   sync.writer (mtx (shared s)) = true /\
   cnt holdsR (goroutines s) = O /\
   exists p, goroutines s !! i = Some p /\ inBody p = true).
Proof.
  intros Hm Hstale Hrun Hstep.
  pose proof (inv_start w now n Hm) as Hinv0.
  pose proof (inv_run w now Hstale sched _ s Hinv0 Hrun) as Hinv.
  pose proof (exclusive_run w now Hstale sched _ s Hinv0
                (exclusive_start w now n) Hrun) as [Hex _].
  pose proof (inv_writer _ _ _ Hinv) as Hw.
  unfold step in Hstep.
  destruct (goroutines s !! i) as [p |] eqn:Hi; [| discriminate].
  pose proof (cnt_pos holdsW _ _ _ Hi) as HposW.
  assert (Hbody : inBody p = true ->
            sync.writer (mtx (shared s)) = true /\
            cnt holdsR (goroutines s) = O /\
            exists p', Some p = Some p' /\ inBody p' = true).
  { intros Hb.
    assert (Hwr : sync.writer (mtx (shared s)) = true).
    { destruct (sync.writer (mtx (shared s))); [reflexivity |].
      simpl in Hw. destruct p; try discriminate Hb; specialize (HposW eq_refl); lia. }
    split; [exact Hwr |]. split; [by apply Hex | by exists p]. }
  destruct p; unfold call_mtx in Hstep;
    repeat match type of Hstep with
           | context [match ?op (mtx (shared s)) with _ => _ end] =>
               destruct (op (mtx (shared s)))
           | context [if expired ?w ?k then _ else _] => destruct (expired w k)
           end;
    try discriminate Hstep; injection Hstep as <-; simpl;
    (split; [reflexivity |]); (split; [reflexivity |]);
    first [ intros _; by apply Hbody | intros [H | H]; by destruct H ].
Qed.

(** X12.  A call of [getAssertion] executes nine statements at most: in an
    execution of [n] callers the goroutines make at most [9 * n] steps,
    whatever the interleaving and the clock. *)
Theorem callers_make_at_most_nine_steps w now n sched s :
  run sched (start n w now) = Next s ->
  (steps_of sched <= 9 * n)%nat.
Proof.
  intros Hrun. pose proof (run_uses_up sched _ s Hrun) as H.
  simpl in H. rewrite total_replicate in H. simpl in H. lia.
Qed.

(** X13.  Each caller runs the inner body at most once: in an execution of
    [n] callers the body is entered at most [n] times. *)
Theorem at_most_one_refresh_per_caller w now n sched s :
  run sched (start n w now) = Next s ->
  (refreshed s <= n)%nat.
Proof.
  intros Hrun.
  assert (H0 : (refreshed (start n w now) <=
                cnt pastRecheck (goroutines (start n w now)))%nat)
    by (simpl; lia).
  pose proof (run_refreshed_le sched _ s Hrun H0) as Hle.
  pose proof (cnt_length pastRecheck (goroutines s)) as Hlen.
  pose proof (run_length sched _ s Hrun) as Hn.
  simpl in Hn. rewrite length_replicate in Hn. lia.
Qed.

(** X14.  When the expiry of the token less ten minutes has passed before
    the callers start (as for a token without expiry), the second test
    protects nothing: no caller ever takes the fast path, every caller
    that is past the tests has entered the inner body, and once the [n]
    callers have returned the body has run exactly [n] times. *)
Theorem stale_token_every_caller_refreshes w now n sched s :
  mtx w = sync.zero ->
  expired w now = true ->
  time.Before (time.Add (oauth2.Expiry (token w)) (-10 * time.Minute)) now = true ->
  run sched (start n w now) = Next s ->
  refreshed s = cnt pastRecheck (goroutines s) /\
  (forall i p, goroutines s !! i = Some p -> onFastPath p = false) /\
  (all_returned s = true -> refreshed s = n).
Proof.
  intros Hm Hstale Htoken Hrun.
  pose proof (inv_start w now n Hm) as Hinv0.
  pose proof (herd_run w now Hstale Htoken sched _ s Hinv0
                (herd_start w now n) Hrun) as [Hn Hf].
  split; [exact Hn |]. split.
  - intros i p Hi. destruct (onFastPath p) eqn:Hp; [| reflexivity].
    pose proof (cnt_pos onFastPath _ _ _ Hi Hp). lia.
  - intros Hall. rewrite Hn.
    rewrite (cnt_all has_returned pastRecheck _ Hall returned_pastRecheck).
    pose proof (run_length sched _ s Hrun) as Hlen.
    simpl in Hlen. by rewrite length_replicate in Hlen.
Qed.

End RaceTheorems.

(** ** The further properties at concrete inputs *)


Lemma configuration_errors_exact_witness :
  NewWorkloadIdentityFederationCredential Examples.accepting None env_no_tenant =
    Failure errorTenantIDNotSpecified /\
  TenantID (options_or_zero (@None (WorkloadIdentityFederationCredentialOptions unit))) = "" /\
  env_no_tenant !! azureTenantID = None.
Proof.
  assert (Hnew : NewWorkloadIdentityFederationCredential Examples.accepting None
                   env_no_tenant = Failure errorTenantIDNotSpecified)
    by reflexivity.
  split; [exact Hnew |].
  destruct (proj1 (proj2 (proj2
              (configuration_errors_exact Examples.accepting None env_no_tenant))) Hnew)
    as (_ & _ & Htn & Henv).
  split; [exact Htn | exact Henv].
Defined.

Lemma constructor_outcome_exact_witness :
  refusing "def" "abc" (caco_of zeroOptions) = inr "invalid tenant" /\
  NewWorkloadIdentityFederationCredential refusing None Examples.env_full =
    Failure (collaboratorError "invalid tenant").
Proof.
  split; [reflexivity |].
  apply (proj2 (constructor_outcome_exact refusing None Examples.env_full)
           "invalid tenant").
  exists "abc", Examples.env_token, "def".
  split; [right; split; reflexivity |].
  split; [| split; [right; split; reflexivity | reflexivity]].
  right. split; [reflexivity |]. exists "tok1".
  split; [reflexivity |]. split; [discriminate | reflexivity].
Defined.

Lemma constructed_credential_shape_witness :
  NewWorkloadIdentityFederationCredential Examples.accepting
    (Some Examples.expiry_only) Examples.env_full =
    Success (constructed
               (oauth2.set_AccessToken "tok1" (FederatedToken Examples.expiry_only)) tt) /\
  oauth2.AccessToken
    (oauth2.set_AccessToken "tok1" (FederatedToken Examples.expiry_only)) <> "" /\
  oauth2.Expiry (oauth2.set_AccessToken "tok1" (FederatedToken Examples.expiry_only)) =
    Examples.t0 + 60 * time.Minute.
Proof.
  assert (Hnew : NewWorkloadIdentityFederationCredential Examples.accepting
                   (Some Examples.expiry_only) Examples.env_full =
                 Success (constructed
                   (oauth2.set_AccessToken "tok1" (FederatedToken Examples.expiry_only)) tt))
    by reflexivity.
  split; [exact Hnew |].
  destruct (constructed_credential_shape Examples.accepting
              (Some Examples.expiry_only) Examples.env_full _ Hnew)
    as (Hne & Hx & _).
  split; [exact Hne | exact Hx].
Defined.

Lemma refreshed_credential_is_stable_witness :
  let late := Examples.t0 + 120 * time.Minute in
  mtx Examples.w_hour = sync.zero /\
  getAssertions [(Examples.t0, Examples.t0); (late, late)]
    (after_refresh Examples.w_hour) =
  Returns [("tok1", None); ("tok1", None)] (after_refresh Examples.w_hour).
Proof.
  split; [reflexivity |].
  exact (refreshed_credential_is_stable Examples.w_hour _ eq_refl).
Defined.

Lemma cache_has_two_states_witness :
  let clock := [(Examples.t0, Examples.t0); (Examples.t0, Examples.t0)] in
  mtx Examples.w_hour = sync.zero /\
  Refreshed ∈ branches clock Examples.w_hour /\
  exists rs w',
    getAssertions clock Examples.w_hour = Returns rs w' /\
    w' = after_refresh Examples.w_hour.
Proof.
  intros clock.
  assert (Hin : Refreshed ∈ branches clock Examples.w_hour)
    by (vm_compute; left).
  split; [reflexivity |]. split; [exact Hin |].
  destruct (cache_has_two_states Examples.w_hour clock eq_refl)
    as (rs & w' & Hr & Hyes & _).
  exists rs, w'. split; [exact Hr | exact (Hyes Hin)].
Defined.

Lemma constructed_credential_returns_its_token_witness :
  let clock := [(Examples.t0, Examples.t0);
                (Examples.t0 + time.Minute, Examples.t0 + time.Minute)] in
  NewWorkloadIdentityFederationCredential Examples.accepting
    (Some Examples.expiry_only) Examples.env_full =
    Success (constructed
               (oauth2.set_AccessToken "tok1" (FederatedToken Examples.expiry_only)) tt) /\
  readings_after time.zero clock /\
  exists w',
    getAssertions clock
      (constructed
         (oauth2.set_AccessToken "tok1" (FederatedToken Examples.expiry_only)) tt) =
    Returns [("tok1", None); ("tok1", None)] w'.
Proof.
  intros clock.
  assert (Hclock : readings_after time.zero clock) by (repeat constructor).
  split; [reflexivity |]. split; [exact Hclock |].
  destruct (constructed_credential_returns_its_token Examples.accepting
              (Some Examples.expiry_only) Examples.env_full _ clock eq_refl Hclock)
    as (w' & Hr & _).
  exists w'. exact Hr.
Defined.

Lemma getAssertion_balances_the_mutex_witness :
  getAssertion Examples.t0 Examples.t0 w_read_locked =
    Returns ("tok1", None) w_read_locked /\
  mtx w_read_locked = {| sync.readers := 1; sync.writer := false |}.
Proof.
  assert (Hcall : getAssertion Examples.t0 Examples.t0 w_read_locked =
                  Returns ("tok1", None) w_read_locked) by reflexivity.
  split; [exact Hcall |].
  exact (eq_sym (proj1 (proj2 (getAssertion_balances_the_mutex
                                 w_read_locked Examples.t0 Examples.t0) _ _ Hcall))).
Defined.


Lemma readers_see_no_torn_cache_witness :
  let sched := [Step 0; Step 0; Step 0; Step 0; Step 0; Step 0; Step 0;
                Step 0; Step 0; Step 1] in
  let s := {| shared := set_mtx {| sync.readers := 1; sync.writer := false |}
                          (after_refresh Examples.w_hour);
              goroutines := [Returned ("tok1", None); AtCheck];
              clock := Examples.t0;
              refreshed := 1 |} in
  mtx Examples.w_hour = sync.zero /\
  expired Examples.w_hour Examples.t0 = true /\
  run sched (start 2 Examples.w_hour Examples.t0) = Next s /\
  cnt holdsW (goroutines s) = O.
Proof.
  intros sched s.
  assert (Hrun : run sched (start 2 Examples.w_hour Examples.t0) = Next s)
    by (vm_compute; reflexivity).
  split; [reflexivity |]. split; [reflexivity |]. split; [exact Hrun |].
  exact (proj1 (proj2 (readers_see_no_torn_cache Examples.w_hour Examples.t0 2
                         sched s eq_refl eq_refl Hrun) 1%nat AtCheck eq_refl eq_refl)).
Defined.

Lemma writes_only_under_the_write_lock_witness :
  let sched := [Step 0; Step 0; Step 0; Step 0; Step 0; Step 0] in
  let s := {| shared := set_mtx {| sync.readers := 0; sync.writer := true |}
                          (set_assertion "tok1" Examples.w_hour);
              goroutines := [AtExpires; AtRLock];
              clock := Examples.t0;
              refreshed := 1 |} in
  let s' := {| shared := set_mtx {| sync.readers := 0; sync.writer := true |}
                           (after_refresh Examples.w_hour);
               goroutines := [AtReturnSlow; AtRLock];
               clock := Examples.t0;
               refreshed := 1 |} in
  mtx Examples.w_hour = sync.zero /\
  expired Examples.w_hour Examples.t0 = true /\
  run sched (start 2 Examples.w_hour Examples.t0) = Next s /\
  step 0 s = Next s' /\
  expires (shared s') <> expires (shared s) /\
  sync.writer (mtx (shared s)) = true.
Proof.
  intros sched s s'.
  assert (Hrun : run sched (start 2 Examples.w_hour Examples.t0) = Next s)
    by (vm_compute; reflexivity).
  assert (Hstep : step 0 s = Next s') by (vm_compute; reflexivity).
  assert (Hne : expires (shared s') <> expires (shared s))
    by (vm_compute; discriminate).
  split; [reflexivity |]. split; [reflexivity |]. split; [exact Hrun |].
  split; [exact Hstep |]. split; [exact Hne |].
  exact (proj1 (proj2 (proj2 (writes_only_under_the_write_lock Examples.w_hour
           Examples.t0 2 sched s 0%nat s' eq_refl eq_refl Hrun Hstep))
           (or_intror Hne))).
Defined.

Lemma callers_make_at_most_nine_steps_witness :
  let s := {| shared := after_refresh Examples.w_env;
              goroutines := [Returned ("tok1", None); Returned ("tok1", None)];
              clock := Examples.t0;
              refreshed := 2 |} in
  run two_callers (start 2 Examples.w_env Examples.t0) = Next s /\
  (steps_of two_callers <= 18)%nat.
Proof.
  intros s.
  assert (Hrun : run two_callers (start 2 Examples.w_env Examples.t0) = Next s)
    by (vm_compute; reflexivity).
  split; [exact Hrun |].
  exact (callers_make_at_most_nine_steps Examples.w_env Examples.t0 2 two_callers s Hrun).
Defined.

Lemma at_most_one_refresh_per_caller_witness :
  let s := {| shared := after_refresh Examples.w_env;
              goroutines := [Returned ("tok1", None); Returned ("tok1", None)];
              clock := Examples.t0;
              refreshed := 2 |} in
  run two_callers (start 2 Examples.w_env Examples.t0) = Next s /\
  (refreshed s <= 2)%nat.
Proof.
  intros s.
  assert (Hrun : run two_callers (start 2 Examples.w_env Examples.t0) = Next s)
    by (vm_compute; reflexivity).
  split; [exact Hrun |].
  exact (at_most_one_refresh_per_caller Examples.w_env Examples.t0 2 two_callers s Hrun).
Defined.

Lemma stale_token_every_caller_refreshes_witness :
  let s := {| shared := after_refresh Examples.w_env;
              goroutines := [Returned ("tok1", None); Returned ("tok1", None)];
              clock := Examples.t0;
              refreshed := 2 |} in
  mtx Examples.w_env = sync.zero /\
  expired Examples.w_env Examples.t0 = true /\
  time.Before (time.Add (oauth2.Expiry (token Examples.w_env)) (-10 * time.Minute))
    Examples.t0 = true /\
  run two_callers (start 2 Examples.w_env Examples.t0) = Next s /\
  all_returned s = true /\
  refreshed s = 2%nat.
Proof.
  intros s.
  assert (Hrun : run two_callers (start 2 Examples.w_env Examples.t0) = Next s)
    by (vm_compute; reflexivity).
  split; [reflexivity |]. split; [reflexivity |]. split; [reflexivity |].
  split; [exact Hrun |]. split; [reflexivity |].
  exact (proj2 (proj2 (stale_token_every_caller_refreshes Examples.w_env Examples.t0 2
                         two_callers s eq_refl eq_refl eq_refl Hrun)) eq_refl).
Defined.
